(** * Der_Die_Das: the spreadsheet loader and the quiz controller

    A shallow embedding of [der_die_das.py]: the loader
    [load_word_article_pairs] with its two readers and its two layout
    builders, and the quiz controller [DerDieDasApp] as explicit state
    passing.  Python strings are modelled as [string], read as UTF-8. *)

From Stdlib Require Import String Ascii DecimalString.
From Stdlib Require Import List Arith Lia Bool Permutation.
Import ListNotations.
Open Scope string_scope.
Open Scope list_scope.
Open Scope nat_scope.

(* ================================================================== *)
(** * Python strings *)
(* ================================================================== *)

(** A [str] is modelled by its UTF-8 encoding, one [ascii] per byte:
    the bytes of a string, and back. *)
Definition bytes (s : string) : list ascii := list_ascii_of_string s.
Definition of_bytes (l : list ascii) : string := string_of_list_ascii l.

(** A sequence of bytes, given by their values. *)
Definition utf8 (codes : list nat) : list ascii := map ascii_of_nat codes.

(** The code point written with four hexadecimal digits. *)
Definition U (a b c d : nat) : nat := ((a * 16 + b) * 16 + c) * 16 + d.

(** The UTF-8 encoding of a code point below U+10000. *)
Definition encode (n : nat) : list ascii :=
  if n <? 128 then utf8 [n]
  else if n <? 2048 then utf8 [192 + n / 64; 128 + n mod 64]
  else utf8 [224 + n / 4096; 128 + (n / 64) mod 64; 128 + n mod 64].

(** The characters [str.isspace] accepts, which are those [str.strip]
    removes: TAB, LF, VT, FF, CR, FS, GS, RS, US, the space, U+0085,
    U+00A0, U+1680, U+2000 to U+200A, U+2028, U+2029, U+202F, U+205F
    and U+3000. *)
Definition whitespace_chars : list nat :=
  [9; 10; 11; 12; 13; 28; 29; 30; 31; 32;
   U 0 0 8 5; U 0 0 10 0; U 1 6 8 0;
   U 2 0 0 0; U 2 0 0 1; U 2 0 0 2; U 2 0 0 3; U 2 0 0 4; U 2 0 0 5;
   U 2 0 0 6; U 2 0 0 7; U 2 0 0 8; U 2 0 0 9; U 2 0 0 10;
   U 2 0 2 8; U 2 0 2 9; U 2 0 2 15; U 2 0 5 15; U 3 0 0 0].

(** Their encodings. *)
Definition whitespace : list (list ascii) :=
  Eval vm_compute in map encode whitespace_chars.

(** [l] without the prefix [w], when it has it. *)
Fixpoint strip_prefix (w l : list ascii) : option (list ascii) :=
  match w with
  | [] => Some l
  | c :: w' =>
      match l with
      | d :: l' => if Ascii.eqb c d then strip_prefix w' l' else None
      | [] => None
      end
  end.

(** [l] without one leading entry of the table, when it has one. *)
Fixpoint drop_any (table : list (list ascii)) (l : list ascii) : option (list ascii) :=
  match table with
  | [] => None
  | w :: table' =>
      match strip_prefix w l with
      | Some r => Some r
      | None => drop_any table' l
      end
  end.

(** Leading entries of the table removed one after the other; each
    takes at least one byte, so [n = length l] turns remove them all. *)
Fixpoint strip_front (n : nat) (table : list (list ascii)) (l : list ascii) : list ascii :=
  match n with
  | 0 => l
  | S n' =>
      match drop_any table l with
      | Some r => strip_front n' table r
      | None => l
      end
  end.

Definition lstrip_bytes (l : list ascii) : list ascii :=
  strip_front (length l) whitespace l.

Definition rstrip_bytes (l : list ascii) : list ascii :=
  rev (strip_front (length l) (map (@rev ascii) whitespace) (rev l)).

(** [s.strip()]: the blanks in front removed, then those behind. *)
Definition strip (s : string) : string :=
  of_bytes (rstrip_bytes (lstrip_bytes (bytes s))).

(** Runs of entries of a table; with the table of blanks, runs of blanks. *)
Inductive BlankOf (table : list (list ascii)) : list ascii -> Prop :=
  | Blank_nil : BlankOf table []
  | Blank_cons (w l : list ascii) :
      In w table -> BlankOf table l -> BlankOf table (w ++ l).

Definition Blank : list ascii -> Prop := BlankOf whitespace.

Definition starts_blank (l : list ascii) : Prop :=
  exists w r, In w whitespace /\ l = w ++ r.

Definition ends_blank (l : list ascii) : Prop :=
  exists w r, In w whitespace /\ l = r ++ w.

(** Trimming as the specification means it: [core] is what stands
    between a run of blanks in front and one behind, and has no blank at
    either end. *)
Definition Trimmed (t core : string) : Prop :=
  exists pre post,
    bytes t = pre ++ bytes core ++ post /\ Blank pre /\ Blank post /\
    ~ starts_blank (bytes core) /\ ~ ends_blank (bytes core).

(** The first byte of some blank. *)
Definition starter (c : ascii) : bool :=
  existsb (fun w => match w with c' :: _ => Ascii.eqb c c' | [] => false end) whitespace.

Definition strip_bytes (l : list ascii) : list ascii := rstrip_bytes (lstrip_bytes l).

Definition TrimmedBytes (t core : list ascii) : Prop :=
  exists pre post,
    t = pre ++ core ++ post /\ Blank pre /\ Blank post /\
    ~ starts_blank core /\ ~ ends_blank core.

Definition lower_ascii (c : ascii) : ascii :=
  let n := nat_of_ascii c in
  if (65 <=? n) && (n <=? 90) then ascii_of_nat (n + 32) else c.

(** [s.lower()], on the capitals A to Z.  [str.lower] lowers other
    capitals too, but none of them into a letter of der, die, das,
    vertical or horizontal, the words the results are compared with;
    and a result that is one of these words is the same either way. *)
Fixpoint lower (s : string) : string :=
  match s with
  | EmptyString => EmptyString
  | String c s' => String (lower_ascii c) (lower s')
  end.

Definition upper_ascii (c : ascii) : ascii :=
  let n := nat_of_ascii c in
  if (97 <=? n) && (n <=? 122) then ascii_of_nat (n - 32) else c.

(** [s.upper()], on the small letters a to z, of which the articles
    der, die, das are made. *)
Fixpoint upper (s : string) : string :=
  match s with
  | EmptyString => EmptyString
  | String c s' => String (upper_ascii c) (upper s')
  end.

(** Truthiness of a string: [if w] holds when [w] is not empty. *)
Definition truthy (s : string) : bool :=
  match s with EmptyString => false | _ => true end.

(** [str(n)] for a non-negative integer. *)
Definition str_nat (n : nat) : string := NilEmpty.string_of_uint (Nat.to_uint n).

Definition newline : string := String (ascii_of_nat 10) EmptyString.

(* ================================================================== *)
(** * Cells and grids *)
(* ================================================================== *)

(** A raw cell value: [None], or a value whose [str()] is the carried
    text (for a text cell, the text itself). *)
Inductive cell : Type :=
  | PyNone
  | PyVal (text : string).

Definition is_none (v : cell) : bool :=
  match v with PyNone => true | PyVal _ => false end.

(** [_clean]: [""] for [None], otherwise [str(s).strip()]. *)
Definition _clean (s : cell) : string :=
  match s with
  | PyNone => ""
  | PyVal text => strip text
  end.

(** [valid_articles = {"der", "die", "das"}] and the test [a in valid_articles]. *)
Definition valid_articles : list string := ["der"; "die"; "das"].

Definition in_valid_articles (a : string) : bool :=
  existsb (String.eqb a) valid_articles.

Definition pair_t : Type := (string * string)%type.

(** The body shared by both builders:
<<
    for w, a in zip(col_w, col_a):
        w = _clean(w); a = _clean(a).lower()
        if w and a in valid_articles: pairs.append((w, a))
>>
    as a left fold that appends to [pairs]. *)
Definition append_if_valid (pairs : list pair_t) (wa : cell * cell) : list pair_t :=
  let w := _clean (fst wa) in
  let a := lower (_clean (snd wa)) in
  if truthy w && in_valid_articles a then pairs ++ [(w, a)] else pairs.

Definition collect_pairs (col_w col_a : list cell) : list pair_t :=
  fold_left append_if_valid (combine col_w col_a) [].

(** The frame pandas returns ([header=None]) after
    [df.where(pd.notnull(df), None)]: an empty cell is [None] where the
    call put it, and a value whose [str] is [nan] where it stayed NaN. *)
Record DataFrame : Type := mkDataFrame {
  df_ncols : nat;
  df_values : list (list cell)
}.

(** [df.iloc[:, c]]: [None] stands for the [IndexError] of a missing column. *)
Definition iloc_col (d : DataFrame) (c : nat) : option (list cell) :=
  if c <? df_ncols d
  then Some (map (fun row => nth c row PyNone) (df_values d))
  else None.

(** [df.iloc[r, :]] *)
Definition iloc_row (d : DataFrame) (r : nat) : option (list cell) :=
  nth_error (df_values d) r.

(** The fallback's [_Wrapper] around the accumulated rows. *)
Record Wrapper : Type := mkWrapper { data : list (list cell) }.

Definition max_len (rows : list (list cell)) : nat :=
  fold_right (fun rw m => Nat.max (length rw) m) 0 rows.

Definition shape (w : Wrapper) : nat * nat := (length (data w), max_len (data w)).

Definition get_col (w : Wrapper) (c : nat) : list cell :=
  map (fun row => if c <? length row then nth c row PyNone else PyNone) (data w).

Definition get_row (w : Wrapper) (r : nat) : list cell :=
  if r <? length (data w) then nth r (data w) [] else [].

(** What the builders receive: a pandas frame (it has [iloc]) or the wrapper. *)
Inductive df_like : Type :=
  | Pandas (d : DataFrame)
  | Fallback (w : Wrapper).

Definition shape0 (df : df_like) : nat :=
  match df with
  | Pandas d => length (df_values d)
  | Fallback w => fst (shape w)
  end.

(** The [try] block of [build_vertical_pairs]; [None] is the [except] branch. *)
Definition vertical_columns (df : df_like) : option (list cell * list cell) :=
  match df with
  | Pandas d =>
      match iloc_col d 0, iloc_col d 1 with
      | Some col_w, Some col_a => Some (col_w, col_a)
      | _, _ => None
      end
  | Fallback w => Some (get_col w 0, get_col w 1)
  end.

Definition build_vertical_pairs (df : df_like) : list pair_t :=
  match vertical_columns df with
  | None => []
  | Some (col_w, col_a) => collect_pairs col_w col_a
  end.

(** The [try] block of [build_horizontal_pairs]; [None] is the early
    [return pairs] (fewer than two rows) or the [except] branch. *)
Definition horizontal_rows (df : df_like) : option (list cell * list cell) :=
  if shape0 df <? 2 then None
  else
    match df with
    | Pandas d =>
        match iloc_row d 0, iloc_row d 1 with
        | Some row_words, Some row_arts => Some (row_words, row_arts)
        | _, _ => None
        end
    | Fallback w => Some (get_row w 0, get_row w 1)
    end.

Definition build_horizontal_pairs (df : df_like) : list pair_t :=
  match horizontal_rows df with
  | None => []
  | Some (row_words, row_arts) => collect_pairs row_words row_arts
  end.

(* ================================================================== *)
(** * Exceptions *)
(* ================================================================== *)

Inductive exn : Type :=
  | FileNotFoundError (msg : string)
  | RuntimeError (msg : string)
  | ValueError (msg : string)
  | IndexError (msg : string)
  | AttributeError (msg : string).

Inductive outcome (A : Type) : Type :=
  | Return (a : A)
  | Raise (e : exn).
Arguments Return {A} a.
Arguments Raise {A} e.

(** [str(e)]: the message the exception was built with. *)
Definition exn_message (e : exn) : string :=
  match e with
  | FileNotFoundError msg | RuntimeError msg | ValueError msg
  | IndexError msg | AttributeError msg => msg
  end.

(* ================================================================== *)
(** * The fallback cell-by-cell reader *)
(* ================================================================== *)

(** The active worksheet as the loop sees it through openpyxl's
    read-only mode: the rows [ws[1]], [ws[2]], ... it yields, down to the
    last row of the sheet, a row without values being an empty tuple or
    a tuple of [None]. *)
Definition worksheet : Type := list (list cell).

(** [[cell.value for cell in ws[r]]], rows counted from 1 (the loop
    starts at 1 and never asks for row 0).  Below the last row [ws[r]]
    raises [IndexError]: that is [None] here. *)
Definition ws_getitem (ws : worksheet) (r : nat) : option (list cell) :=
  nth_error ws (r - 1).

Definition row_out_of_range : exn := IndexError "tuple index out of range".

(** The variables of the scanning loop: [rows], [empty_streak], [r]. *)
Record scan_state : Type := mkScan {
  sc_rows : list (list cell);
  sc_empty_streak : nat;
  sc_r : nat
}.

Definition scan_init : scan_state := mkScan [] 0 1.

(** [all(v is None for v in row_vals)] *)
Definition all_none (row_vals : list cell) : bool := forallb is_none row_vals.

(** One turn of the loop body. *)
Definition scan_body (ws : worksheet) (st : scan_state) : outcome scan_state :=
  match ws_getitem ws (sc_r st) with
  | None => Raise row_out_of_range
  | Some row_vals =>
      if length row_vals =? 0 then
        Return (mkScan (sc_rows st) (sc_empty_streak st + 1) (sc_r st + 1))
      else if all_none row_vals then
        Return (mkScan (sc_rows st) (sc_empty_streak st + 1) (sc_r st + 1))
      else
        Return (mkScan (sc_rows st ++ [row_vals]) 0 (sc_r st + 1))
  end.

(** [while empty_streak < 10: ...], with [fuel] bounding the number of
    turns; [None] means the bound was reached with the loop still running. *)
Fixpoint scan_loop (fuel : nat) (ws : worksheet) (st : scan_state)
  : option (outcome scan_state) :=
  if sc_empty_streak st <? 10 then
    match fuel with
    | 0 => None
    | S fuel' =>
        match scan_body ws st with
        | Raise e => Some (Raise e)
        | Return st' => scan_loop fuel' ws st'
        end
    end
  else Some (Return st).

(** The loop run on a sheet.  It reads a row or raises at each turn, so
    [length ws + 1] turns always suffice (see [scan_loop_terminates]). *)
Definition scan_rows (ws : worksheet) : option (outcome scan_state) :=
  scan_loop (length ws + 1) ws scan_init.

(** The rows the loop accumulates, or the exception it raises; the loop
    never outlasts its fuel, so the last case does not arise. *)
Definition read_rows (ws : worksheet) : outcome (list (list cell)) :=
  match scan_rows ws with
  | Some (Return st) => Return (sc_rows st)
  | Some (Raise e) => Raise e
  | None => Raise row_out_of_range
  end.

(** Padding of ragged rows up to [maxc] with [None]. *)
Definition pad_rows (rows : list (list cell)) : list (list cell) :=
  let maxc := max_len rows in
  map (fun rw => if length rw <? maxc
                 then rw ++ repeat PyNone (maxc - length rw)
                 else rw) rows.

(** The scan, the padding and the wrapping. *)
Definition fallback_df (ws : worksheet) : outcome df_like :=
  match read_rows ws with
  | Return rows => Return (Fallback (mkWrapper (pad_rows rows)))
  | Raise e => Raise e
  end.

(* ================================================================== *)
(** * The loader *)
(* ================================================================== *)

(** What the two libraries make of an existing file.  [pandas_read] is
    [None] when the pandas attempt raises; [openpyxl_read] is the active
    sheet, or the text of the exception [load_workbook] (or the import)
    raises. *)
Record xlsx_file : Type := mkFile {
  pandas_read : option DataFrame;
  openpyxl_read : worksheet + string
}.

(** The file system: [None] where [os.path.exists] is false. *)
Definition filesystem : Type := string -> option xlsx_file.

(** The [orientation] argument: a [str], or any other object. *)
Inductive orientation_arg : Type :=
  | Str (s : string)
  | NotStr.

Definition no_pairs_message : string :=
  ("No valid (word, article) pairs found." ++ newline ++
   "- 세로(열): A열=단어, B열=der/die/das" ++ newline ++
   "- 가로(행): 1행=단어들, 2행=der/die/das")%string.

(** [f"Excel file not found: {xlsx_path}"] *)
Definition not_found_message (path : string) : string :=
  ("Excel file not found: " ++ path)%string.

(** [f"Failed to read Excel with pandas or openpyxl. Details: {e}"] *)
Definition read_failure_message (details : string) : string :=
  ("Failed to read Excel with pandas or openpyxl. Details: " ++ details)%string.

(** The fallback [try] block: the wrapped grid, or the text of the
    exception raised inside it, by openpyxl or by the scan. *)
Definition fallback_try (f : xlsx_file) : df_like + string :=
  match openpyxl_read f with
  | inl ws =>
      match fallback_df ws with
      | Return df => inl df
      | Raise e => inr (exn_message e)
      end
  | inr e => inr e
  end.

(** Steps 1 and 2: pandas first, the fallback when pandas failed. *)
Definition read_grid (f : xlsx_file) : outcome df_like :=
  match pandas_read f with
  | Some d => Return (Pandas d)
  | None =>
      match fallback_try f with
      | inl df => Return df
      | inr e => Raise (RuntimeError (read_failure_message e))
      end
  end.

(** The list the [orientation] argument selects. *)
Definition chosen_pairs (df : df_like) (orientation : orientation_arg) : list pair_t :=
  let vertical_pairs := build_vertical_pairs df in
  let horizontal_pairs := build_horizontal_pairs df in
  let choice := match orientation with Str s => lower s | NotStr => "auto" end in
  if String.eqb choice "vertical" then vertical_pairs
  else if String.eqb choice "horizontal" then horizontal_pairs
  else if length horizontal_pairs <=? length vertical_pairs
       then vertical_pairs else horizontal_pairs.

(** The final check: [if not chosen: raise ValueError(...)]. *)
Definition choose_pairs (df : df_like) (orientation : orientation_arg)
  : outcome (list pair_t) :=
  match chosen_pairs df orientation with
  | [] => Raise (ValueError no_pairs_message)
  | chosen => Return chosen
  end.

Definition load_word_article_pairs (fs : filesystem) (xlsx_path : string)
    (orientation : orientation_arg) : outcome (list pair_t) :=
  match fs xlsx_path with
  | None => Raise (FileNotFoundError (not_found_message xlsx_path))
  | Some f =>
      match read_grid f with
      | Raise e => Raise e
      | Return df => choose_pairs df orientation
      end
  end.

(* ================================================================== *)
(** * The vocabulary of the specification *)
(* ================================================================== *)

(** A candidate after trimming both cells and lowercasing the article. *)
Definition normalise (wa : cell * cell) : pair_t :=
  (_clean (fst wa), lower (_clean (snd wa))).

(** A capital letter, A to Z. *)
Definition is_upper (c : ascii) : Prop := 65 <= nat_of_ascii c <= 90.

(** Lowercasing as the specification means it: every capital replaced by
    its small letter, 32 code points further, all else kept. *)
Inductive Lowered : string -> string -> Prop :=
  | Lowered_nil : Lowered "" ""
  | Lowered_same (c : ascii) (s s' : string) :
      ~ is_upper c -> Lowered s s' -> Lowered (String c s) (String c s')
  | Lowered_capital (c : ascii) (s s' : string) :
      is_upper c -> Lowered s s' ->
      Lowered (String c s) (String (ascii_of_nat (nat_of_ascii c + 32)) s').

(** The text of a cell trimmed of whitespace; an absent value has none. *)
Definition CleanOf (c : cell) (core : string) : Prop :=
  match c with
  | PyNone => core = ""
  | PyVal text => Trimmed text core
  end.

(** The specification's validity: the trimmed word is not empty and the
    trimmed, lowercased article is exactly one of der, die, das. *)
Definition ValidPair (w a : cell) : Prop :=
  exists word art,
    CleanOf w word /\ CleanOf a art /\ word <> "" /\
    (Lowered art "der" \/ Lowered art "die" \/ Lowered art "das").

(** The pair the specification keeps for a valid candidate. *)
Definition PairOf (w a : cell) (p : pair_t) : Prop :=
  exists art, CleanOf w (fst p) /\ CleanOf a art /\ Lowered art (snd p).

(** The test of the builders' loop, on the two cells of a candidate. *)
Definition valid_pair (wa : cell * cell) : bool :=
  negb (String.eqb (_clean (fst wa)) "") &&
  (String.eqb (lower (_clean (snd wa))) "der" ||
   String.eqb (lower (_clean (snd wa))) "die" ||
   String.eqb (lower (_clean (snd wa))) "das").

(** The candidates of an interpretation: the cells paired position by
    position, none when the interpretation is unavailable. *)
Definition candidates (o : option (list cell * list cell)) : list (cell * cell) :=
  match o with
  | None => []
  | Some (ws, arts) => combine ws arts
  end.

(** The raw rows of a grid. *)
Definition grid (df : df_like) : list (list cell) :=
  match df with
  | Pandas d => df_values d
  | Fallback w => data w
  end.

(** A frame is well formed when every row has [df_ncols] cells. *)
Definition well_formed (df : df_like) : Prop :=
  match df with
  | Pandas d => Forall (fun row => length row = df_ncols d) (df_values d)
  | Fallback _ => True
  end.

(** The cells of columns 0 and 1 of a row. *)
Definition row_cells (row : list cell) : cell * cell :=
  (nth 0 row PyNone, nth 1 row PyNone).

(** A row of a vertical sheet: a valid pair in columns 0 and 1. *)
Definition ValidRow (row : list cell) : Prop :=
  ValidPair (nth 0 row PyNone) (nth 1 row PyNone).

(** The pair a vertical row stands for. *)
Definition row_pair (row : list cell) : pair_t := normalise (row_cells row).

(** A fully-empty row, as the scanning loop tests it. *)
Definition is_empty_row (row_vals : list cell) : bool :=
  (length row_vals =? 0) || all_none row_vals.

Definition nonempty_row (row_vals : list cell) : bool := negb (is_empty_row row_vals).

(** Row [i] of the sheet, from 1; the empty row where the sheet has none. *)
Definition row_at (ws : worksheet) (i : nat) : list cell := nth (i - 1) ws [].

(** Rows [m-9 .. m] are rows of the sheet and all fully empty. *)
Definition gap_at (ws : worksheet) (m : nat) : bool :=
  (10 <=? m) && (m <=? length ws) &&
  forallb (fun i => is_empty_row (row_at ws i)) (seq (m - 9) 10).

(** [n] rows were read when the first run of ten empty rows was complete. *)
Definition first_gap_end (ws : worksheet) (n : nat) : Prop :=
  gap_at ws n = true /\ forall m, m < n -> gap_at ws m = false.

(** No run of ten empty rows lies inside the sheet. *)
Definition no_gap (ws : worksheet) : bool :=
  forallb (fun m => negb (gap_at ws m)) (seq 0 (S (length ws))).

(** The non-empty rows among rows [1 .. n] of the sheet, in order. *)
Definition compact (ws : worksheet) (n : nat) : list (list cell) :=
  filter nonempty_row (map (row_at ws) (seq 1 n)).

(** What holds of the loop variables before every turn.  With
    [n = r - 1] rows read: they are rows of the sheet, the last
    [empty_streak] of them are empty, the row before them is not, no run
    of ten empty rows was complete before row [n], and [rows] holds the
    non-empty rows read so far. *)
Definition scan_inv (ws : worksheet) (st : scan_state) : Prop :=
  1 <= sc_r st /\
  sc_empty_streak st <= 10 /\
  sc_empty_streak st <= sc_r st - 1 /\
  (forall i, sc_r st - 1 - sc_empty_streak st < i -> i < sc_r st ->
             is_empty_row (row_at ws i) = true) /\
  (sc_empty_streak st < sc_r st - 1 ->
   is_empty_row (row_at ws (sc_r st - 1 - sc_empty_streak st)) = false) /\
  (forall m, m < sc_r st - 1 -> gap_at ws m = false) /\
  sc_r st - 1 <= length ws /\
  sc_rows st = compact ws (sc_r st - 1).

(* ------------------------------------------------------------------ *)
(** ** Sample sheets and files *)
(* ------------------------------------------------------------------ *)

Definition txt (s : string) : cell := PyVal s.

(** Section 8 of the specification: Haus/das, Mann/der, Frau/die. *)
Definition haus_rows : list (list cell) :=
  [[txt "Haus"; txt "das"]; [txt "Mann"; txt " DER "]; [txt "Frau"; txt "die"]].

Definition haus_frame : DataFrame := mkDataFrame 2 haus_rows.

(** Two vertical rows with two more columns to their right. *)
Definition wide_rows : list (list cell) :=
  [[txt "Haus"; txt "das"; txt "Tisch"; txt "Lampe"];
   [txt "Mann"; txt "der"; txt "der"; txt "die"]].

Definition wide_frame : DataFrame := mkDataFrame 4 wide_rows.

(** Two by two, readable both ways. *)
Definition tie_frame : DataFrame :=
  mkDataFrame 2 [[txt "Haus"; txt "die"]; [txt "das"; txt "der"]].

(** A horizontal sheet of three columns. *)
Definition flat_frame : DataFrame :=
  mkDataFrame 3 [[txt "Haus"; txt "Mann"; txt "Frau"]; [txt "das"; txt "der"; txt "die"]].

Definition empty_frame : DataFrame := mkDataFrame 0 [].

(** The no-break space U+00A0 and the ideographic space U+3000. *)
Definition nbsp : string := of_bytes (encode (U 0 0 10 0)).
Definition wide_space : string := of_bytes (encode (U 3 0 0 0)).

(** Cells as they come: blanks around the texts, both kinds of space,
    an article that is none, an absent word, an absent article, and a
    cell pandas left as NaN, whose text is nan. *)
Definition mixed_frame : DataFrame :=
  mkDataFrame 2
    [[txt " Haus "; txt " DER "];
     [txt "Mann"; txt (nbsp ++ "Der" ++ wide_space)];
     [txt (nbsp ++ " "); txt "der"];
     [txt "Tisch"; txt "den"];
     [PyNone; txt "das"];
     [txt "Frau"; PyNone];
     [txt "nan"; txt "die"]].

(** A single vertical row: nothing to read horizontally. *)
Definition single_frame : DataFrame := mkDataFrame 2 [[txt "Haus"; txt "das"]].

Definition blank_row : list cell := [PyNone; PyNone].


Definition one_file (name : string) (f : xlsx_file) : filesystem :=
  fun path => if String.eqb path name then Some f else None.

Definition via_pandas (d : DataFrame) : filesystem :=
  one_file "words.xlsx" (mkFile (Some d) (inr "not used")).

Definition via_openpyxl (ws : worksheet) : filesystem :=
  one_file "words.xlsx" (mkFile None (inl ws)).

Definition unreadable : filesystem :=
  one_file "words.xlsx" (mkFile None (inr "File is not a zip file")).

(* ================================================================== *)
(** * The quiz controller *)
(* ================================================================== *)

(** [round(a / b)] for non-negative integers with [b > 0]: the nearest
    integer to the quotient, a tie going to the even neighbour (the
    rounding of Python's [round]).  The quotient is taken exactly; the
    double that [a / b] produces rounds the same way as long as the
    counts stay far below 2^45. *)
Definition round_div (a b : nat) : nat :=
  let q := a / b in
  let rem := a mod b in
  if 2 * rem <? b then q
  else if b <? 2 * rem then q + 1
  else if Nat.even q then q else q + 1.

(** [random.shuffle]: the generator is threaded through, and all that is
    known of the result is that it rearranges the list. *)
Class RandomSource : Type := {
  rng : Type;
  shuffle : rng -> list pair_t -> rng * list pair_t;
  shuffle_perm : forall g l, Permutation l (snd (shuffle g l))
}.

(** The widgets the methods configure. *)
Record widgets : Type := mkWidgets {
  score_label : string;
  word_label : string;
  feedback : string;
  status : string;
  btn_start : bool;      (* state="normal" *)
  btn_next : bool;
  btn_options : bool     (* btn_der, btn_die, btn_das together *)
}.

Definition initial_widgets : widgets :=
  mkWidgets "Score: 0 / 0 (0%)" "—" "" "Ready." true false false.

Section Quiz.
Context {RS : RandomSource}.

(** The attributes of [DerDieDasApp].  [current] holds
    [(current_word, current_art)], absent until the first draw;
    [scheduled] counts the [after(150, self.next_question)] callbacks
    that have not fired yet. *)
Record app : Type := mkApp {
  pairs : list pair_t;
  deck : list pair_t;
  idx : nat;
  waiting_for_next : bool;
  score : nat;
  seen : nat;
  current : option pair_t;
  gen : rng;
  scheduled : nat;
  ui : widgets
}.

(** [__init__] *)
Definition init_app (g : rng) (ps : list pair_t) : app :=
  mkApp ps [] 0 false 0 0 None g 0 initial_widgets.

Definition config (f : widgets -> widgets) (st : app) : app :=
  mkApp (pairs st) (deck st) (idx st) (waiting_for_next st) (score st) (seen st)
        (current st) (gen st) (scheduled st) (f (ui st)).

Definition set_score_label (t : string) (w : widgets) : widgets :=
  mkWidgets t (word_label w) (feedback w) (status w) (btn_start w) (btn_next w) (btn_options w).
Definition set_word_label (t : string) (w : widgets) : widgets :=
  mkWidgets (score_label w) t (feedback w) (status w) (btn_start w) (btn_next w) (btn_options w).
Definition set_feedback (t : string) (w : widgets) : widgets :=
  mkWidgets (score_label w) (word_label w) t (status w) (btn_start w) (btn_next w) (btn_options w).
Definition set_status (t : string) (w : widgets) : widgets :=
  mkWidgets (score_label w) (word_label w) (feedback w) t (btn_start w) (btn_next w) (btn_options w).
Definition set_btn_start (b : bool) (w : widgets) : widgets :=
  mkWidgets (score_label w) (word_label w) (feedback w) (status w) b (btn_next w) (btn_options w).
Definition set_btn_next (b : bool) (w : widgets) : widgets :=
  mkWidgets (score_label w) (word_label w) (feedback w) (status w) (btn_start w) b (btn_options w).
(** [enable_options] *)
Definition enable_options (enable : bool) (w : widgets) : widgets :=
  mkWidgets (score_label w) (word_label w) (feedback w) (status w) (btn_start w) (btn_next w) enable.
(** [show_word] *)
Definition show_word (word : string) (w : widgets) : widgets := set_word_label word w.

(** The accuracy [update_score_label] computes. *)
Definition accuracy (st : app) : nat :=
  if seen st =? 0 then 0 else round_div (score st * 100) (seen st).

Definition update_score_label (st : app) : app :=
  let acc := accuracy st in
  config (set_score_label
    ("Score: " ++ str_nat (score st) ++ " / " ++ str_nat (seen st)
       ++ " (" ++ str_nat acc ++ "%)")%string) st.

(** The reshuffle of [next_question] and [start_quiz]:
    [random.shuffle(self.pairs); self.deck = self.pairs[:]; self.idx = 0]. *)
Definition reshuffle (st : app) : app :=
  let '(g, ps) := shuffle (gen st) (pairs st) in
  mkApp ps ps 0 (waiting_for_next st) (score st) (seen st)
        (current st) g (scheduled st) (ui st).

Definition next_question (st : app) : outcome app :=
  let st :=
    if waiting_for_next st
    then mkApp (pairs st) (deck st) (idx st) false (score st) (seen st)
               (current st) (gen st) (scheduled st) (ui st)
    else st in
  let st :=
    if length (deck st) <=? idx st
    then config (set_status "Deck completed. Shuffling and continuing...") (reshuffle st)
    else st in
  match nth_error (deck st) (idx st) with
  | None => Raise (IndexError "list index out of range")
  | Some (current_word, current_art) =>
      let st := mkApp (pairs st) (deck st) (idx st + 1) (waiting_for_next st)
                      (score st) (seen st + 1) (Some (current_word, current_art))
                      (gen st) (scheduled st) (ui st) in
      let st := config (show_word current_word) st in
      let st := config (set_feedback "") st in
      let st := config (enable_options true) st in
      let st := config (set_btn_next false) st in
      Return (update_score_label st)
  end.

Definition start_quiz (st : app) : outcome app :=
  let st := reshuffle st in
  let st := mkApp (pairs st) (deck st) 0 false 0 0
                  (current st) (gen st) (scheduled st) (ui st) in
  let st := config (set_btn_start false) st in
  let st := config (enable_options true) st in
  let st := config (set_btn_next false) st in
  let st := config (set_feedback "") st in
  let st := config (set_status "Quiz started. Good luck!") st in
  let st := update_score_label st in
  next_question st.

(** The text of the [AttributeError] for [self.current_art] before any
    question was drawn: [tkinter.Tk.__getattr__] passes the lookup on to
    the interpreter object [self.tk], which is the one that fails. *)
Definition no_current_art : string :=
  "'_tkinter.tkapp' object has no attribute 'current_art'".

Definition submit (guess : string) (st : app) : outcome app :=
  if waiting_for_next st then Return st
  else
    match current st with
    | None => Raise (AttributeError no_current_art)
    | Some (current_word, current_art) =>
        if String.eqb guess current_art then
          let st := mkApp (pairs st) (deck st) (idx st) (waiting_for_next st)
                          (score st + 1) (seen st) (current st) (gen st)
                          (scheduled st) (ui st) in
          let st := config (set_feedback "Correct!") st in
          let st := config (set_status ("Nice! Pressed " ++ upper guess ++ ".")%string) st in
          let st := update_score_label st in
          Return (mkApp (pairs st) (deck st) (idx st) (waiting_for_next st)
                        (score st) (seen st) (current st) (gen st)
                        (scheduled st + 1) (ui st))
        else
          let st := config (set_feedback
                      ("Wrong. Correct answer: " ++ upper current_art)%string) st in
          let st := config (set_status "Press any key or Next to continue.") st in
          let st := config (enable_options false) st in
          let st := config (set_btn_next true) st in
          let st := mkApp (pairs st) (deck st) (idx st) true (score st) (seen st)
                          (current st) (gen st) (scheduled st) (ui st) in
          Return (update_score_label st)
    end.

(** [key_to_article] *)
Definition key_to_article (key : string) : option string :=
  if String.eqb key "1" then Some "der"
  else if String.eqb key "2" then Some "die"
  else if String.eqb key "3" then Some "das"
  else None.

Definition on_key (keysym : string) (st : app) : outcome app :=
  if waiting_for_next st then next_question st
  else
    match key_to_article keysym with
    | Some a => submit a st
    | None => Return st
    end.

(** What reaches the event loop.  A click on a disabled button does
    nothing; the timer runs one scheduled [next_question]. *)
Inductive event : Type :=
  | ClickStart
  | ClickNext
  | ClickArticle (a : string)
  | KeyPress (keysym : string)
  | TimerFires.

Definition dispatch (e : event) (st : app) : outcome app :=
  match e with
  | ClickStart => if btn_start (ui st) then start_quiz st else Return st
  | ClickNext => if btn_next (ui st) then next_question st else Return st
  | ClickArticle a => if btn_options (ui st) then submit a st else Return st
  | KeyPress k => on_key k st
  | TimerFires =>
      match scheduled st with
      | 0 => Return st
      | S k =>
          next_question
            (mkApp (pairs st) (deck st) (idx st) (waiting_for_next st) (score st)
                   (seen st) (current st) (gen st) k (ui st))
      end
  end.

(** The deck and the index the subscript [self.deck[self.idx]] of
    [next_question] ends up using, after the reshuffle when there is one. *)
Definition deck_used (st : app) : list pair_t :=
  if length (deck st) <=? idx st then snd (shuffle (gen st) (pairs st)) else deck st.

Definition index_used (st : app) : nat :=
  if length (deck st) <=? idx st then 0 else idx st.

(** [k] draws in a row, stopping at the first exception. *)
Fixpoint draws (k : nat) (st : app) : outcome app :=
  match k with
  | 0 => Return st
  | S k' =>
      match next_question st with
      | Return st' => draws k' st'
      | Raise e => Raise e
      end
  end.

(** The states of section 4.2 of the specification, read off the
    attributes.  [Running]: the quiz was started, a question is shown,
    no wrong answer awaits its acknowledgment and no automatic advance
    is pending. *)
Definition AwaitingAcknowledgment (st : app) : Prop := waiting_for_next st = true.

Definition Running (st : app) : Prop :=
  waiting_for_next st = false /\
  (exists w a, current st = Some (w, a)) /\
  scheduled st = 0 /\
  btn_start (ui st) = false /\
  pairs st <> [].

End Quiz.

(* ------------------------------------------------------------------ *)
(** ** A sample quiz *)
(* ------------------------------------------------------------------ *)

(** A source of "random" permutations that reverses the list each time. *)
Definition reversing_source : RandomSource :=
  {| rng := nat;
     shuffle := fun g l => (S g, rev l);
     shuffle_perm := fun _ l => Permutation_rev l |}.

Definition demo_pairs : list pair_t :=
  [("Haus", "das"); ("Mann", "der"); ("Frau", "die")].

Definition state_of (o : outcome (@app reversing_source)) : @app reversing_source :=
  match o with
  | Return st => st
  | Raise _ => @init_app reversing_source 0 []
  end.

(** After Start: the deck is Frau, Mann, Haus and Frau is shown. *)
Definition demo_started : @app reversing_source :=
  state_of (start_quiz (@init_app reversing_source 0 demo_pairs)).

(** After a wrong answer to the first question. *)
Definition demo_waiting : @app reversing_source :=
  state_of (submit "der" demo_started).

(** A state with the given counters, for the score label. *)
Definition tally (sc sn : nat) : @app reversing_source :=
  @mkApp reversing_source demo_pairs demo_pairs 0 false sc sn None 0 0 initial_widgets.

(* ================================================================== *)
(** * The start-up and the event loop *)
(* ================================================================== *)

(** What a pair of the loader's result looks like: a word that is not
    empty and carries no blank at either end, and one of the three
    articles. *)
Definition clean_pair (p : pair_t) : Prop :=
  fst p <> "" /\
  ~ starts_blank (bytes (fst p)) /\ ~ ends_blank (bytes (fst p)) /\
  In (snd p) valid_articles.

Section QuizRuns.
Context {RS : RandomSource}.

(** [main]: the message of the error box when the loader raises,
    otherwise the application built on the loaded pairs, about to enter
    its event loop. *)
Definition main (fs : filesystem) (g : rng) : string + app :=
  match load_word_article_pairs fs "words.xlsx" (Str "auto") with
  | Raise e =>
      inl ("Failed to load words.xlsx" ++ newline ++ newline ++ exn_message e)%string
  | Return pairs => inr (init_app g pairs)
  end.

(** The states the event loop can be in: the one [__init__] builds, and
    those a handler returned normally from. *)
Inductive reachable (g0 : rng) (ps0 : list pair_t) : app -> Prop :=
  | reach_init : reachable g0 ps0 (init_app g0 ps0)
  | reach_step (st st' : app) (e : event) :
      reachable g0 ps0 st -> dispatch e st = Return st' -> reachable g0 ps0 st'.

(** What holds once Start was clicked. *)
Definition started_inv (ps0 : list pair_t) (st : app) : Prop :=
  btn_start (ui st) = false /\
  Permutation ps0 (pairs st) /\
  deck st = pairs st /\
  1 <= idx st /\ idx st <= length (deck st) /\
  current st = nth_error (deck st) (idx st - 1) /\
  btn_next (ui st) = waiting_for_next st /\
  btn_options (ui st) = negb (waiting_for_next st) /\
  score_label (ui st) = score_label (ui (update_score_label st)) /\
  1 <= seen st.

(** The pairs shown by [k] draws in a row. *)
Fixpoint asked (k : nat) (st : app) : list pair_t :=
  match k with
  | 0 => []
  | S k' =>
      match next_question st with
      | Return st' =>
          match current st' with
          | Some p => p :: asked k' st'
          | None => asked k' st'
          end
      | Raise _ => []
      end
  end.

End QuizRuns.

(** A sheet on one line: nothing to read either way. *)
Definition lone_cell_frame : DataFrame := mkDataFrame 1 [[txt "Haus"]].

(** A ragged grid, as the fallback reader may accumulate it. *)
Definition ragged_rows : list (list cell) :=
  [[txt "Haus"]; [txt "das"; txt "der"; PyNone]; []].

(** Vertical rows with blank rows between the words. *)
Definition airy_rows : worksheet :=
  [[txt "Haus"; txt "das"]; blank_row; blank_row; [txt "Mann"; txt "der"]; [];
   [txt "Frau"; txt " Die"]].

(** A sheet of these rows, ten blank rows, and one more entry. *)
Definition airy_sheet : worksheet :=
  airy_rows ++ repeat blank_row 10 ++ [[txt "Kind"; txt "das"]].

(* ================================================================== *)
(** * Facts about strings *)
(* ================================================================== *)

Lemma strip_prefix_app (w r : list ascii) : strip_prefix w (w ++ r) = Some r.
Proof. induction w as [|c w IH]; simpl; [reflexivity|]. now rewrite Ascii.eqb_refl. Qed.

Lemma strip_prefix_some (w l r : list ascii) :
  strip_prefix w l = Some r -> l = w ++ r.
Proof.
  revert l; induction w as [|c w IH]; intros l H; simpl in H.
  - now injection H as ->.
  - destruct l as [|d l]; [discriminate|].
    destruct (Ascii.eqb_spec c d) as [->|]; [|discriminate].
    simpl. f_equal. now apply IH.
Qed.

Lemma drop_any_some (table : list (list ascii)) (l r : list ascii) :
  drop_any table l = Some r -> exists w, In w table /\ l = w ++ r.
Proof.
  induction table as [|w table IH]; simpl; [discriminate|].
  destruct (strip_prefix w l) as [r'|] eqn:E.
  - intros H. injection H as ->. exists w. split; [now left | now apply strip_prefix_some].
  - intros H. destruct (IH H) as [w' [Hin Hl]]. exists w'. split; [now right | exact Hl].
Qed.

Lemma drop_any_nil (table : list (list ascii)) :
  Forall (fun w => w <> []) table -> drop_any table [] = None.
Proof.
  induction 1 as [|w t Hw _ IH]; [reflexivity|].
  simpl. destruct w; [congruence | exact IH].
Qed.

Section Tables.
Variable table : list (list ascii).
Hypothesis table_nonempty : Forall (fun w => w <> []) table.
Hypothesis table_prefix_free :
  forall w, In w table -> forall r, drop_any table (w ++ r) = Some r.

Lemma blank_app (a b : list ascii) :
  BlankOf table a -> BlankOf table b -> BlankOf table (a ++ b).
Proof.
  induction 1 as [|w l Hw Hl IH]; intros Hb; [exact Hb|].
  rewrite <- app_assoc. apply Blank_cons; auto.
Qed.

Lemma blank_one (w : list ascii) : In w table -> BlankOf table w.
Proof.
  intros H. rewrite <- (app_nil_r w). apply Blank_cons; [exact H | constructor].
Qed.

Lemma drop_any_none (l : list ascii) :
  drop_any table l = None -> forall w r, In w table -> l <> w ++ r.
Proof.
  intros H w r Hin ->. rewrite (table_prefix_free w Hin r) in H. discriminate.
Qed.

Lemma strip_front_split (n : nat) :
  forall l, length l <= n ->
  exists pre, BlankOf table pre /\ l = pre ++ strip_front n table l /\
              drop_any table (strip_front n table l) = None.
Proof.
  induction n as [|n IH]; intros l Hl.
  - destruct l; [|simpl in Hl; lia]. exists [].
    split; [constructor|]. split; [reflexivity | now apply drop_any_nil].
  - simpl. destruct (drop_any table l) as [r|] eqn:E.
    + destruct (drop_any_some _ _ _ E) as [w [Hin ->]].
      assert (Hw : w <> []).
      { rewrite Forall_forall in table_nonempty. now apply table_nonempty. }
      destruct (IH r) as [pre (Hb & Hr & Hn)].
      { rewrite length_app in Hl. destruct w; [congruence | simpl in Hl; lia]. }
      exists (w ++ pre). split; [now apply Blank_cons|].
      split; [|exact Hn]. rewrite <- app_assoc. now f_equal.
    + exists []. repeat split; [constructor | exact E].
Qed.

Lemma strip_front_blank_app (pre x : list ascii) :
  BlankOf table pre -> drop_any table x = None ->
  forall n, length (pre ++ x) <= n -> strip_front n table (pre ++ x) = x.
Proof.
  induction 1 as [|w l Hw Hl IH]; intros Hx n Hn.
  - simpl. destruct n; [reflexivity|]. simpl. now rewrite Hx.
  - assert (Hne : w <> []).
    { rewrite Forall_forall in table_nonempty. now apply table_nonempty. }
    rewrite <- app_assoc in Hn |- *.
    destruct n as [|n].
    + rewrite length_app in Hn. destruct w; [congruence | simpl in Hn; lia].
    + simpl. rewrite (table_prefix_free w Hw). apply IH; [exact Hx|].
      rewrite length_app in Hn. destruct w; [congruence | simpl in Hn; lia].
Qed.

End Tables.

Lemma whitespace_nonempty : Forall (fun w => w <> []) whitespace.
Proof. repeat constructor; discriminate. Qed.

Lemma whitespace_rev_nonempty : Forall (fun w => w <> []) (map (@rev ascii) whitespace).
Proof. repeat constructor; discriminate. Qed.

Lemma whitespace_prefix_free :
  forall w, In w whitespace -> forall r, drop_any whitespace (w ++ r) = Some r.
Proof.
  intros w Hin r. simpl in Hin.
  repeat (destruct Hin as [<- | Hin]; [reflexivity|]). contradiction.
Qed.

Lemma whitespace_rev_prefix_free :
  forall w, In w (map (@rev ascii) whitespace) ->
  forall r, drop_any (map (@rev ascii) whitespace) (w ++ r) = Some r.
Proof.
  intros w Hin r. simpl in Hin.
  repeat (destruct Hin as [<- | Hin]; [reflexivity|]). contradiction.
Qed.

Lemma blank_starts_with_starter (c : ascii) (l : list ascii) :
  Blank (c :: l) -> starter c = true.
Proof.
  intros H. inversion H as [|w l' Hw Hl Heq].
  pose proof whitespace_nonempty as Hne. rewrite Forall_forall in Hne.
  specialize (Hne w Hw). destruct w as [|c' w']; [congruence|].
  simpl in Heq. injection Heq as -> _.
  unfold starter. apply existsb_exists. exists (c :: w').
  split; [exact Hw | apply Ascii.eqb_refl].
Qed.

Lemma whitespace_tails :
  forall w, In w whitespace ->
  forallb (fun c => negb (starter c)) (tl w) = true.
Proof.
  intros w Hin. simpl in Hin.
  repeat (destruct Hin as [<- | Hin]; [reflexivity|]). contradiction.
Qed.

(** Behind a core that does not begin with a blank, blanks that follow
    cannot make it begin with one. *)
Lemma no_blank_across (core post : list ascii) :
  core <> [] -> ~ starts_blank core -> Blank post ->
  drop_any whitespace (core ++ post) = None.
Proof.
  intros Hne Hs Hp.
  destruct (drop_any whitespace (core ++ post)) as [r|] eqn:E; [|reflexivity].
  exfalso. destruct (drop_any_some _ _ _ E) as [w [Hw Heq]].
  apply app_eq_app in Heq as [l [[Hc Hr] | [Hwl Hpl]]].
  - apply Hs. now exists w, l.
  - destruct l as [|c l].
    + rewrite app_nil_r in Hwl. apply Hs. exists w, []. split; [exact Hw|].
      now rewrite app_nil_r.
    + rewrite Hpl in Hp. simpl in Hp. apply blank_starts_with_starter in Hp.
      pose proof (whitespace_tails w Hw) as Ht. rewrite Hwl in Ht.
      destruct core as [|c0 core]; [congruence|]. simpl in Ht.
      rewrite forallb_app in Ht. apply andb_true_iff in Ht as [_ Ht].
      simpl in Ht. rewrite Hp in Ht. discriminate.
Qed.

Lemma blank_rev (l : list ascii) :
  BlankOf (map (@rev ascii) whitespace) l -> Blank (rev l).
Proof.
  induction 1 as [|w l Hw Hl IH]; [constructor|].
  rewrite rev_app_distr. apply blank_app; [exact IH|].
  apply blank_one. apply in_map_iff in Hw as [w0 [<- Hin]].
  now rewrite rev_involutive.
Qed.

Lemma rev_blank (l : list ascii) :
  Blank l -> BlankOf (map (@rev ascii) whitespace) (rev l).
Proof.
  induction 1 as [|w l Hw Hl IH]; [constructor|].
  rewrite rev_app_distr. apply blank_app; [exact IH|].
  apply blank_one. now apply in_map.
Qed.

Lemma strip_bytes_trimmed (t : list ascii) : TrimmedBytes t (strip_bytes t).
Proof.
  unfold strip_bytes, rstrip_bytes, lstrip_bytes.
  destruct (strip_front_split whitespace whitespace_nonempty (length t) t (le_n _))
    as [pre (Hpre & Ht & Hn)].
  set (lb := strip_front (length t) whitespace t) in *.
  destruct (strip_front_split (map (@rev ascii) whitespace) whitespace_rev_nonempty
              (length lb) (rev lb)) as [post' (Hpost & Hl & Hn')].
  { now rewrite length_rev. }
  set (x := strip_front (length lb) (map (@rev ascii) whitespace) (rev lb)) in *.
  assert (Hlb : lb = rev x ++ rev post').
  { rewrite <- rev_app_distr, <- Hl. now rewrite rev_involutive. }
  exists pre, (rev post').
  split; [now rewrite <- Hlb|].
  split; [exact Hpre|]. split; [now apply blank_rev|].
  split.
  - intros (w & r & Hw & Hx).
    apply (drop_any_none whitespace whitespace_prefix_free lb Hn w (r ++ rev post') Hw).
    now rewrite Hlb, Hx, app_assoc.
  - intros (w & r & Hw & Hx).
    apply (drop_any_none _ whitespace_rev_prefix_free x Hn' (rev w) (rev r)).
    + now apply in_map.
    + rewrite <- rev_app_distr, <- Hx. now rewrite rev_involutive.
Qed.

Lemma trimmed_strip_bytes (t core : list ascii) :
  TrimmedBytes t core -> strip_bytes t = core.
Proof.
  intros (pre & post & -> & Hpre & Hpost & Hs & He).
  unfold strip_bytes, rstrip_bytes, lstrip_bytes.
  destruct core as [|c core].
  - change (pre ++ [] ++ post) with (pre ++ post).
    assert (E : strip_front (length (pre ++ post)) whitespace (pre ++ post) = []).
    { pose proof (strip_front_blank_app whitespace whitespace_nonempty
                    whitespace_prefix_free (pre ++ post) []
                    (blank_app whitespace pre post Hpre Hpost) eq_refl
                    (length (pre ++ post))) as H.
      rewrite app_nil_r in H. apply H. apply le_n. }
    rewrite E. reflexivity.
  - rewrite (strip_front_blank_app whitespace whitespace_nonempty whitespace_prefix_free
               pre ((c :: core) ++ post) Hpre);
      [|apply no_blank_across; [discriminate | exact Hs | exact Hpost] | apply le_n].
    rewrite rev_app_distr.
    rewrite (strip_front_blank_app _ whitespace_rev_nonempty whitespace_rev_prefix_free
               (rev post) (rev (c :: core)) (rev_blank post Hpost)).
    + apply rev_involutive.
    + destruct (drop_any (map (@rev ascii) whitespace) (rev (c :: core))) as [r|] eqn:E;
        [|reflexivity].
      exfalso. apply He. destruct (drop_any_some _ _ _ E) as [w' [Hw' Heq]].
      apply in_map_iff in Hw' as [w [<- Hw]].
      exists w, (rev r). split; [exact Hw|].
      rewrite <- (rev_involutive (c :: core)), Heq, rev_app_distr.
      now rewrite rev_involutive.
    + rewrite <- rev_app_distr, length_rev. apply le_n.
Qed.

Lemma bytes_of_bytes (l : list ascii) : bytes (of_bytes l) = l.
Proof. apply list_ascii_of_string_of_list_ascii. Qed.

Lemma of_bytes_bytes (s : string) : of_bytes (bytes s) = s.
Proof. apply string_of_list_ascii_of_string. Qed.

(** [strip] is trimming: what it returns is the one string that is left
    between a run of blanks in front and a run of blanks behind and has
    no blank at either end. *)
Lemma strip_spec (t core : string) : strip t = core <-> Trimmed t core.
Proof.
  unfold strip, Trimmed. split.
  - intros <-. rewrite bytes_of_bytes. apply strip_bytes_trimmed.
  - intros H. apply trimmed_strip_bytes in H. unfold strip_bytes in H.
    rewrite H. apply of_bytes_bytes.
Qed.

Lemma whitespace_encodings : whitespace = map encode whitespace_chars.
Proof. vm_compute. reflexivity. Qed.

(** [lower] is lowercasing. *)
Lemma lower_ascii_spec (c : ascii) :
  (is_upper c /\ lower_ascii c = ascii_of_nat (nat_of_ascii c + 32)) \/
  (~ is_upper c /\ lower_ascii c = c).
Proof.
  unfold lower_ascii, is_upper; cbv zeta.
  destruct (Nat.leb_spec 65 (nat_of_ascii c));
    destruct (Nat.leb_spec (nat_of_ascii c) 90); cbn [andb];
    [left | right | right | right]; split; try reflexivity; lia.
Qed.

Lemma lower_spec (s s' : string) : lower s = s' <-> Lowered s s'.
Proof.
  split.
  - intros <-. induction s as [|c s IH]; cbn [lower]; [constructor|].
    destruct (lower_ascii_spec c) as [[Hu ->] | [Hu ->]];
      [apply Lowered_capital | apply Lowered_same]; assumption.
  - induction 1 as [|c s s' Hu _ IH|c s s' Hu _ IH]; cbn [lower]; [reflexivity| |].
    + destruct (lower_ascii_spec c) as [[Hu' _] | [_ ->]]; [contradiction | now rewrite IH].
    + destruct (lower_ascii_spec c) as [[_ ->] | [Hu' _]]; [now rewrite IH | contradiction].
Qed.

(* ================================================================== *)
(** * Facts about the builders *)
(* ================================================================== *)

Lemma truthy_nonempty (s : string) : truthy s = negb (String.eqb s "").
Proof. destruct s; reflexivity. Qed.

Lemma in_valid_articles_spec (a : string) :
  in_valid_articles a =
  (String.eqb a "der" || String.eqb a "die" || String.eqb a "das").
Proof.
  unfold in_valid_articles, valid_articles; simpl.
  now rewrite orb_false_r, orb_assoc.
Qed.

(** The test of the loop is the specification's validity test. *)
Lemma loop_test_valid_pair (wa : cell * cell) :
  truthy (_clean (fst wa)) && in_valid_articles (lower (_clean (snd wa)))
  = valid_pair wa.
Proof.
  unfold valid_pair. now rewrite truthy_nonempty, in_valid_articles_spec.
Qed.

(** [_clean] is trimming. *)
Lemma clean_spec (c : cell) (core : string) : _clean c = core <-> CleanOf c core.
Proof.
  destruct c as [|t]; cbn [_clean CleanOf]; [split; congruence | apply strip_spec].
Qed.

(** The test of the code is the validity of the specification. *)
Lemma valid_pair_ValidPair (wa : cell * cell) :
  valid_pair wa = true <-> ValidPair (fst wa) (snd wa).
Proof.
  unfold valid_pair, ValidPair.
  rewrite andb_true_iff, negb_true_iff, !orb_true_iff, !String.eqb_eq.
  rewrite String.eqb_neq, !lower_spec. split.
  - intros [Hw Ha]. exists (_clean (fst wa)), (_clean (snd wa)).
    split; [now apply clean_spec|]. split; [now apply clean_spec|]. tauto.
  - intros (word & art & Hw & Ha & Hne & Hl).
    apply clean_spec in Hw, Ha. subst. tauto.
Qed.

(** The pair the code appends is the pair of the specification. *)
Lemma normalise_spec (wa : cell * cell) (p : pair_t) :
  normalise wa = p <-> PairOf (fst wa) (snd wa) p.
Proof.
  unfold normalise, PairOf. destruct p as [w a]; cbn [fst snd]. split.
  - intros [= <- <-]. exists (_clean (snd wa)).
    split; [now apply clean_spec|]. split; [now apply clean_spec|].
    now apply lower_spec.
  - intros (art & Hw & Ha & Hl).
    apply clean_spec in Hw, Ha. apply lower_spec in Hl. now subst.
Qed.

Lemma not_starts_blank_nil : ~ starts_blank [].
Proof.
  intros (w & r & Hin & Heq).
  pose proof whitespace_nonempty as Hne. rewrite Forall_forall in Hne.
  apply (Hne w Hin). destruct w; [reflexivity | discriminate].
Qed.

Lemma not_ends_blank_nil : ~ ends_blank [].
Proof.
  intros (w & r & Hin & Heq).
  pose proof whitespace_nonempty as Hne. rewrite Forall_forall in Hne.
  apply (Hne w Hin). symmetry in Heq. now apply app_eq_nil in Heq.
Qed.

(** A text of blanks only is trimmed to nothing. *)
Lemma strip_blank_text (t : string) : Blank (bytes t) -> strip t = "".
Proof.
  intros Hb. apply strip_spec. exists (bytes t), [].
  split; [change (bytes t = bytes t ++ []); now rewrite app_nil_r|]. split; [exact Hb|]. split; [constructor|].
  split; [apply not_starts_blank_nil | apply not_ends_blank_nil].
Qed.

Lemma append_if_valid_spec (pairs : list pair_t) (wa : cell * cell) :
  append_if_valid pairs wa =
  pairs ++ (if valid_pair wa then [normalise wa] else []).
Proof.
  unfold append_if_valid. rewrite loop_test_valid_pair.
  destruct (valid_pair wa); [reflexivity | now rewrite app_nil_r].
Qed.

(** The accumulating loop is a filter followed by a map. *)
Lemma fold_append_if_valid (l : list (cell * cell)) (acc : list pair_t) :
  fold_left append_if_valid l acc = acc ++ map normalise (filter valid_pair l).
Proof.
  revert acc; induction l as [|wa l IH]; intros acc; simpl.
  - now rewrite app_nil_r.
  - rewrite IH, append_if_valid_spec.
    destruct (valid_pair wa); simpl.
    + now rewrite <- app_assoc.
    + now rewrite app_nil_r.
Qed.

Lemma collect_pairs_filter (col_w col_a : list cell) :
  collect_pairs col_w col_a = map normalise (filter valid_pair (combine col_w col_a)).
Proof. unfold collect_pairs. now rewrite fold_append_if_valid. Qed.

Lemma build_vertical_pairs_filter (df : df_like) :
  build_vertical_pairs df =
  map normalise (filter valid_pair (candidates (vertical_columns df))).
Proof.
  unfold build_vertical_pairs, candidates.
  destruct (vertical_columns df) as [[col_w col_a]|]; [apply collect_pairs_filter | reflexivity].
Qed.

Lemma build_horizontal_pairs_filter (df : df_like) :
  build_horizontal_pairs df =
  map normalise (filter valid_pair (candidates (horizontal_rows df))).
Proof.
  unfold build_horizontal_pairs, candidates.
  destruct (horizontal_rows df) as [[rw ra]|]; [apply collect_pairs_filter | reflexivity].
Qed.

(** A candidate with [None] on either side is never kept. *)
Lemma valid_pair_none_l (a : cell) : valid_pair (PyNone, a) = false.
Proof. reflexivity. Qed.

Lemma valid_pair_none_r (w : cell) : valid_pair (w, PyNone) = false.
Proof. unfold valid_pair; simpl. now rewrite andb_false_r. Qed.

(** C4. In both interpretations the builder keeps exactly the candidates
    that are valid: after both cells are trimmed of whitespace (the
    blanks of [str.strip], the no-break space and the other Unicode
    spaces among them) and the article is lowercased, the word is not
    empty and the article is one of der, die, das.  A kept candidate
    appears as its trimmed word and lowercased article, in the order of
    the sheet; the others simply do not appear, and a builder has no way
    to report an error: it returns a list.  An article such as den, an
    absent value, or a word of blanks only, is thereby dropped; a value
    whose text is nan is a word like any other. *)
Theorem builders_keep_exactly_valid_candidates (df : df_like) :
  build_vertical_pairs df =
    map normalise (filter valid_pair (candidates (vertical_columns df))) /\
  build_horizontal_pairs df =
    map normalise (filter valid_pair (candidates (horizontal_rows df))) /\
  (forall wa, valid_pair wa = true <-> ValidPair (fst wa) (snd wa)) /\
  (forall wa p, normalise wa = p <-> PairOf (fst wa) (snd wa) p) /\
  (forall t core, strip t = core <-> Trimmed t core) /\
  (forall t t', lower t = t' <-> Lowered t t') /\
  (forall p, In p (build_vertical_pairs df) <->
     exists wa, In wa (candidates (vertical_columns df)) /\
                ValidPair (fst wa) (snd wa) /\ PairOf (fst wa) (snd wa) p) /\
  (forall p, In p (build_horizontal_pairs df) <->
     exists wa, In wa (candidates (horizontal_rows df)) /\
                ValidPair (fst wa) (snd wa) /\ PairOf (fst wa) (snd wa) p) /\
  (forall w, valid_pair (w, txt "den") = false) /\
  (forall a, valid_pair (txt "  ", a) = false /\ valid_pair (PyNone, a) = false) /\
  (forall t a, Blank (bytes t) -> valid_pair (txt t, a) = false) /\
  (forall w, valid_pair (w, PyNone) = false) /\
  build_vertical_pairs (Pandas mixed_frame) =
    [("Haus", "der"); ("Mann", "der"); ("nan", "die")] /\
  build_horizontal_pairs (Pandas mixed_frame) = [("DER", "der")].
Proof.
  assert (Hmem : forall l p,
            In p (map normalise (filter valid_pair l)) <->
            exists wa, In wa l /\ ValidPair (fst wa) (snd wa) /\
                       PairOf (fst wa) (snd wa) p).
  { intros l p. rewrite in_map_iff. split.
    - intros [wa [Hp Hin]]. apply filter_In in Hin as [Hin Hv].
      exists wa. rewrite <- valid_pair_ValidPair, <- normalise_spec. auto.
    - intros [wa [Hin [Hv Hp]]]. exists wa. split; [now apply normalise_spec|].
      apply filter_In. rewrite valid_pair_ValidPair. auto. }
  split; [apply build_vertical_pairs_filter|].
  split; [apply build_horizontal_pairs_filter|].
  split; [apply valid_pair_ValidPair|].
  split; [apply normalise_spec|].
  split; [apply strip_spec|].
  split; [apply lower_spec|].
  split; [intros p; rewrite build_vertical_pairs_filter; apply Hmem|].
  split; [intros p; rewrite build_horizontal_pairs_filter; apply Hmem|].
  split; [intros w; unfold valid_pair; cbn [fst snd]; apply andb_false_r|].
  split; [intros a; split; reflexivity|].
  split.
  { intros t a Hb. unfold valid_pair; cbn [fst snd txt _clean].
    now rewrite (strip_blank_text t Hb). }
  split; [apply valid_pair_none_r|].
  split; vm_compute; reflexivity.
Qed.

(* ================================================================== *)
(** * Facts about the selection *)
(* ================================================================== *)

Lemma valid_row_intro (row : list cell) :
  valid_pair (row_cells row) = true -> ValidRow row.
Proof. intros H. now apply (proj1 (valid_pair_ValidPair (row_cells row))). Qed.

Lemma valid_row_elim (row : list cell) :
  ValidRow row -> valid_pair (row_cells row) = true.
Proof. intros H. now apply (proj2 (valid_pair_ValidPair (row_cells row))). Qed.

Lemma valid_row_two_cells (row : list cell) : ValidRow row -> 2 <= length row.
Proof.
  intros H. apply valid_row_elim in H.
  destruct row as [|w [|a row]]; simpl; try lia.
  - discriminate H.
  - unfold row_cells in H; simpl in H. now rewrite valid_pair_none_r in H.
Qed.

Lemma combine_map_same {A B C : Type} (f : A -> B) (g : A -> C) (l : list A) :
  combine (map f l) (map g l) = map (fun x => (f x, g x)) l.
Proof. induction l; simpl; congruence. Qed.

Lemma get_col_nth (w : Wrapper) (c : nat) :
  get_col w c = map (fun row => nth c row PyNone) (data w).
Proof.
  unfold get_col. apply map_ext. intros row.
  destruct (c <? length row) eqn:E; [reflexivity|].
  apply Nat.ltb_ge in E. now rewrite nth_overflow.
Qed.

Lemma filter_all_true {A : Type} (f : A -> bool) (l : list A) :
  Forall (fun x => f x = true) l -> filter f l = l.
Proof.
  induction 1 as [|x l Hx _ IH]; simpl; [reflexivity|]. now rewrite Hx, IH.
Qed.

Lemma collect_row_cells (rows : list (list cell)) :
  Forall ValidRow rows ->
  collect_pairs (map (fun row => nth 0 row PyNone) rows)
                (map (fun row => nth 1 row PyNone) rows)
  = map row_pair rows.
Proof.
  intros H. rewrite collect_pairs_filter, combine_map_same.
  change (fun x : list cell => (nth 0 x PyNone, nth 1 x PyNone)) with row_cells.
  rewrite filter_all_true.
  - now rewrite map_map.
  - apply Forall_map. eapply Forall_impl; [|exact H].
    intros row. apply valid_row_elim.
Qed.

(** On a sheet of valid rows the vertical reading is the rows themselves. *)
Lemma vertical_pairs_of_valid_rows (df : df_like) :
  well_formed df -> Forall ValidRow (grid df) ->
  build_vertical_pairs df = map row_pair (grid df).
Proof.
  intros Hwf Hrows. unfold build_vertical_pairs, vertical_columns.
  destruct df as [d|w]; simpl in *.
  - unfold iloc_col.
    destruct (df_values d) as [|row rows] eqn:E.
    + simpl. destruct (0 <? df_ncols d), (1 <? df_ncols d); reflexivity.
    + assert (H2 : 2 <= df_ncols d).
      { inversion Hwf as [|? ? Hlen _]; subst. inversion Hrows as [|? ? Hv _]; subst.
        apply valid_row_two_cells in Hv. lia. }
      replace (0 <? df_ncols d) with true by (symmetry; apply Nat.ltb_lt; lia).
      replace (1 <? df_ncols d) with true by (symmetry; apply Nat.ltb_lt; lia).
      now apply collect_row_cells.
  - rewrite !get_col_nth. now apply collect_row_cells.
Qed.

Lemma auto_is_auto : lower "auto" = "auto".
Proof. reflexivity. Qed.

(** The [else] branch of the selection, for [orientation="auto"]. *)
Lemma chosen_pairs_auto (df : df_like) :
  chosen_pairs df (Str "auto") =
  if length (build_horizontal_pairs df) <=? length (build_vertical_pairs df)
  then build_vertical_pairs df else build_horizontal_pairs df.
Proof. reflexivity. Qed.

Lemma choose_pairs_nonempty (df : df_like) (o : orientation_arg) :
  chosen_pairs df o <> [] -> choose_pairs df o = Return (chosen_pairs df o).
Proof.
  unfold choose_pairs. destruct (chosen_pairs df o); [congruence | reflexivity].
Qed.

Lemma auto_returns_vertical (df : df_like) :
  build_vertical_pairs df <> [] ->
  length (build_horizontal_pairs df) <= length (build_vertical_pairs df) ->
  choose_pairs df (Str "auto") = Return (build_vertical_pairs df).
Proof.
  intros Hne Hle.
  assert (E : chosen_pairs df (Str "auto") = build_vertical_pairs df).
  { rewrite chosen_pairs_auto. apply Nat.leb_le in Hle. now rewrite Hle. }
  rewrite choose_pairs_nonempty; rewrite E; auto.
Qed.

Lemma auto_returns_horizontal (df : df_like) :
  length (build_vertical_pairs df) < length (build_horizontal_pairs df) ->
  choose_pairs df (Str "auto") = Return (build_horizontal_pairs df).
Proof.
  intros Hlt.
  assert (E : chosen_pairs df (Str "auto") = build_horizontal_pairs df).
  { rewrite chosen_pairs_auto. apply Nat.leb_gt in Hlt. now rewrite Hlt. }
  rewrite choose_pairs_nonempty; rewrite E; auto.
  intros Hnil. rewrite Hnil in Hlt. simpl in Hlt. lia.
Qed.

Lemma load_of_grid (fs : filesystem) (path : string) (f : xlsx_file)
    (df : df_like) (o : orientation_arg) :
  fs path = Some f -> read_grid f = Return df ->
  load_word_article_pairs fs path o = choose_pairs df o.
Proof. intros Hf Hg. unfold load_word_article_pairs. now rewrite Hf, Hg. Qed.

(** The pair of a row is its trimmed word and its trimmed, lowercased
    article. *)
Lemma row_pairs_spec (rows : list (list cell)) :
  Forall2 (fun row p => PairOf (nth 0 row PyNone) (nth 1 row PyNone) p)
          rows (map row_pair rows).
Proof.
  induction rows as [|row rows IH]; [constructor|].
  cbn [map]. constructor; [|exact IH].
  apply (proj1 (normalise_spec (row_cells row) (row_pair row))). reflexivity.
Qed.

(** C1, as amended.  For a well-formed grid of N >= 1 rows, each with a
    valid pair in columns 0 and 1, whose horizontal reading yields no
    more than N pairs, the loader with orientation auto returns exactly
    the N pairs of the rows, in row order: for each row its trimmed word
    with its trimmed, lowercased article. *)
Theorem vertical_sheet_loads_in_row_order
    (fs : filesystem) (path : string) (f : xlsx_file) (df : df_like) :
  fs path = Some f -> read_grid f = Return df ->
  well_formed df -> grid df <> [] -> Forall ValidRow (grid df) ->
  length (build_horizontal_pairs df) <= length (grid df) ->
  load_word_article_pairs fs path (Str "auto") = Return (map row_pair (grid df)) /\
  length (map row_pair (grid df)) = length (grid df) /\
  Forall2 (fun row p => PairOf (nth 0 row PyNone) (nth 1 row PyNone) p)
          (grid df) (map row_pair (grid df)).
Proof.
  intros Hf Hg Hwf Hne Hrows Hh.
  split; [|split; [apply length_map | apply row_pairs_spec]].
  rewrite (load_of_grid fs path f df _ Hf Hg).
  rewrite <- (vertical_pairs_of_valid_rows df Hwf Hrows).
  apply auto_returns_vertical.
  - rewrite (vertical_pairs_of_valid_rows df Hwf Hrows).
    destruct (grid df); [congruence | discriminate].
  - rewrite (vertical_pairs_of_valid_rows df Hwf Hrows), length_map. exact Hh.
Qed.

(** The same for the plain two-column sheet: there the horizontal reading
    can never win. *)
Lemma two_column_sheet_loads_in_row_order
    (fs : filesystem) (path : string) (f : xlsx_file) (df : df_like) :
  fs path = Some f -> read_grid f = Return df ->
  well_formed df -> grid df <> [] -> Forall ValidRow (grid df) ->
  Forall (fun row => length row = 2) (grid df) ->
  load_word_article_pairs fs path (Str "auto") = Return (map row_pair (grid df)).
Proof.
  intros Hf Hg Hwf Hne Hrows H2.
  rewrite (load_of_grid fs path f df _ Hf Hg).
  rewrite <- (vertical_pairs_of_valid_rows df Hwf Hrows).
  apply auto_returns_vertical.
  - rewrite (vertical_pairs_of_valid_rows df Hwf Hrows).
    destruct (grid df); [congruence | discriminate].
  - rewrite (vertical_pairs_of_valid_rows df Hwf Hrows), length_map.
    rewrite build_horizontal_pairs_filter, length_map.
    etransitivity; [apply filter_length_le|].
    unfold candidates, horizontal_rows.
    destruct (shape0 df <? 2) eqn:E; [simpl; lia|].
    apply Nat.ltb_ge in E.
    assert (Hlen : 2 <= length (grid df)) by (destruct df; exact E).
    assert (Hc : forall r0 r1 rest, grid df = r0 :: r1 :: rest ->
                 length (combine r0 r1) <= length (grid df)).
    { intros r0 r1 rest Eg. rewrite Eg in H2, Hlen |- *.
      inversion H2 as [|? ? L0 _]; subst. rewrite length_combine. simpl. lia. }
    destruct df as [d|w]; simpl in *.
    + unfold iloc_row. destruct (df_values d) as [|r0 [|r1 rows]]; simpl in *; try lia.
      apply (Hc r0 r1 rows eq_refl).
    + unfold get_row. destruct (data w) as [|r0 [|r1 rows]]; simpl in *; try lia.
      apply (Hc r0 r1 rows eq_refl).
Qed.

Lemma vertical_sheet_loads_in_row_order_witness :
  load_word_article_pairs (via_pandas haus_frame) "words.xlsx" (Str "auto")
    = Return [("Haus", "das"); ("Mann", "der"); ("Frau", "die")] /\
  length (map row_pair (grid (Pandas haus_frame))) = 3 /\
  Forall2 (fun row p => PairOf (nth 0 row PyNone) (nth 1 row PyNone) p)
          haus_rows (map row_pair haus_rows).
Proof.
  apply (vertical_sheet_loads_in_row_order (via_pandas haus_frame) "words.xlsx"
           (mkFile (Some haus_frame) (inr "not used")) (Pandas haus_frame)).
  - reflexivity.
  - reflexivity.
  - repeat constructor.
  - discriminate.
  - repeat constructor; apply valid_row_intro; vm_compute; reflexivity.
  - vm_compute; lia.
Defined.

(** A word that is a no-break space is an empty word: its row is no
    valid row, and the loader drops it. *)
Example no_break_space_is_trimmed :
  valid_pair (txt nbsp, txt "der") = false /\
  valid_pair (txt "Mann", txt (nbsp ++ "der")) = true /\
  load_word_article_pairs
    (via_pandas (mkDataFrame 2 [[txt "Haus"; txt "das"]; [txt nbsp; txt "der"]]))
    "words.xlsx" (Str "auto")
  = Return [("Haus", "das")].
Proof. repeat split; vm_compute; reflexivity. Qed.

(** C1, as stated, fails.  Two well-formed rows with valid pairs in
    columns 0 and 1 and two further columns: row 0 against row 1 gives
    three valid pairs, so auto returns the horizontal reading, not the
    two rows.  And a sheet without rows (N = 0) makes the loader raise
    [ValueError] instead of returning an empty list. *)
Lemma wide_vertical_sheet_loads_horizontal :
  (well_formed (Pandas wide_frame) /\
   Forall ValidRow (grid (Pandas wide_frame)) /\
   length (grid (Pandas wide_frame)) = 2 /\
   load_word_article_pairs (via_pandas wide_frame) "words.xlsx" (Str "auto")
     = Return [("das", "der"); ("Tisch", "der"); ("Lampe", "die")] /\
   load_word_article_pairs (via_pandas wide_frame) "words.xlsx" (Str "auto")
     <> Return (map row_pair (grid (Pandas wide_frame)))) /\
  (well_formed (Pandas empty_frame) /\
   Forall ValidRow (grid (Pandas empty_frame)) /\
   load_word_article_pairs (via_pandas empty_frame) "words.xlsx" (Str "auto")
     = Raise (ValueError no_pairs_message)).
Proof.
  split.
  - split; [repeat constructor|].
    split; [repeat constructor; apply valid_row_intro; vm_compute; reflexivity|].
    split; [reflexivity|].
    split; [vm_compute; reflexivity|].
    vm_compute. discriminate.
  - split; [constructor|]. split; [constructor | reflexivity].
Qed.

(** C3. With orientation auto, on any grid that was read: when both
    candidate lists are non-empty and of equal length the loader returns
    the vertical list, and when one list is strictly longer it returns
    that one. *)
Theorem auto_prefers_longer_and_vertical_on_tie
    (fs : filesystem) (path : string) (f : xlsx_file) (df : df_like) :
  fs path = Some f -> read_grid f = Return df ->
  (build_vertical_pairs df <> [] -> build_horizontal_pairs df <> [] ->
   length (build_vertical_pairs df) = length (build_horizontal_pairs df) ->
   load_word_article_pairs fs path (Str "auto") = Return (build_vertical_pairs df)) /\
  (length (build_horizontal_pairs df) < length (build_vertical_pairs df) ->
   load_word_article_pairs fs path (Str "auto") = Return (build_vertical_pairs df)) /\
  (length (build_vertical_pairs df) < length (build_horizontal_pairs df) ->
   load_word_article_pairs fs path (Str "auto") = Return (build_horizontal_pairs df)).
Proof.
  intros Hf Hg. rewrite (load_of_grid fs path f df _ Hf Hg).
  split; [|split].
  - intros Hv _ Hlen. apply auto_returns_vertical; [exact Hv | lia].
  - intros Hlt. apply auto_returns_vertical; [|lia].
    intros Hnil. rewrite Hnil in Hlt. simpl in Hlt. lia.
  - apply auto_returns_horizontal.
Qed.

Lemma auto_prefers_longer_and_vertical_on_tie_witness :
  load_word_article_pairs (via_pandas tie_frame) "words.xlsx" (Str "auto")
    = Return [("Haus", "die"); ("das", "der")] /\
  load_word_article_pairs (via_pandas haus_frame) "words.xlsx" (Str "auto")
    = Return [("Haus", "das"); ("Mann", "der"); ("Frau", "die")] /\
  load_word_article_pairs (via_pandas flat_frame) "words.xlsx" (Str "auto")
    = Return [("Haus", "das"); ("Mann", "der"); ("Frau", "die")].
Proof.
  split; [|split].
  - apply (proj1 (auto_prefers_longer_and_vertical_on_tie
             (via_pandas tie_frame) "words.xlsx"
             (mkFile (Some tie_frame) (inr "not used")) (Pandas tie_frame)
             eq_refl eq_refl)).
    + discriminate.
    + discriminate.
    + reflexivity.
  - apply (proj1 (proj2 (auto_prefers_longer_and_vertical_on_tie
             (via_pandas haus_frame) "words.xlsx"
             (mkFile (Some haus_frame) (inr "not used")) (Pandas haus_frame)
             eq_refl eq_refl))).
    vm_compute; lia.
  - apply (proj2 (proj2 (auto_prefers_longer_and_vertical_on_tie
             (via_pandas flat_frame) "words.xlsx"
             (mkFile (Some flat_frame) (inr "not used")) (Pandas flat_frame)
             eq_refl eq_refl))).
    vm_compute; lia.
Defined.

(* ================================================================== *)
(** * The failure modes of the loader *)
(* ================================================================== *)

Lemma read_grid_raises (f : xlsx_file) (e : exn) :
  read_grid f = Raise e ->
  exists details, pandas_read f = None /\ fallback_try f = inr details /\
                  e = RuntimeError (read_failure_message details).
Proof.
  unfold read_grid. destruct (pandas_read f); [discriminate|].
  destruct (fallback_try f) as [df|details]; [discriminate|].
  intros H. injection H as <-. now exists details.
Qed.

Lemma choose_pairs_raises (df : df_like) (o : orientation_arg) (e : exn) :
  choose_pairs df o = Raise e ->
  chosen_pairs df o = [] /\ e = ValueError no_pairs_message.
Proof.
  unfold choose_pairs. destruct (chosen_pairs df o); [|discriminate].
  intros H. injection H as <-. auto.
Qed.

(** C2, as stated, fails: a file that exists but that neither pandas nor
    openpyxl can read makes the loader raise [RuntimeError], which is
    neither [FileNotFoundError] nor the no-valid-pairs error. *)
Lemma unreadable_file_raises_runtime_error :
  (exists f, unreadable "words.xlsx" = Some f) /\
  load_word_article_pairs unreadable "words.xlsx" (Str "auto")
    = Raise (RuntimeError
        "Failed to read Excel with pandas or openpyxl. Details: File is not a zip file").
Proof. split; [eexists|]; reflexivity. Qed.

(** C2, as amended.  The loader raises [FileNotFoundError], the path
    closing its message, when the file does not exist; [ValueError]
    (the no-valid-pairs error) when the grid was read and the list the
    orientation selects is empty; [RuntimeError] when the file exists
    and both readers fail, the fallback by any exception raised inside
    its [try].  It raises nothing else, and each of the three only in
    its own situation. *)
Theorem loader_failure_modes
    (fs : filesystem) (path : string) (o : orientation_arg) :
  (fs path = None ->
   load_word_article_pairs fs path o = Raise (FileNotFoundError (not_found_message path))) /\
  (forall f df, fs path = Some f -> read_grid f = Return df ->
     chosen_pairs df o = [] ->
     load_word_article_pairs fs path o = Raise (ValueError no_pairs_message)) /\
  (forall f details, fs path = Some f ->
     pandas_read f = None -> fallback_try f = inr details ->
     load_word_article_pairs fs path o
       = Raise (RuntimeError (read_failure_message details))) /\
  (forall e, load_word_article_pairs fs path o = Raise e ->
     (fs path = None /\ e = FileNotFoundError (not_found_message path)) \/
     (exists f df, fs path = Some f /\ read_grid f = Return df /\
        chosen_pairs df o = [] /\ e = ValueError no_pairs_message) \/
     (exists f details, fs path = Some f /\ pandas_read f = None /\
        fallback_try f = inr details /\
        e = RuntimeError (read_failure_message details))).
Proof.
  unfold load_word_article_pairs.
  split; [|split; [|split]].
  - intros Hf. now rewrite Hf.
  - intros f df Hf Hg Hc. rewrite Hf, Hg. unfold choose_pairs. now rewrite Hc.
  - intros f details Hf Hp Ho. rewrite Hf. unfold read_grid. now rewrite Hp, Ho.
  - intros e. destruct (fs path) as [f|] eqn:Hf.
    + destruct (read_grid f) as [df|e'] eqn:Hg.
      * intros H. apply choose_pairs_raises in H as [Hc He].
        right; left. now exists f, df.
      * intros H. injection H as <-.
        apply read_grid_raises in Hg as [details [Hp [Ho He]]].
        right; right. now exists f, details.
    + intros H. injection H as <-. now left.
Qed.

Lemma loader_failure_modes_witness :
  load_word_article_pairs unreadable "nowhere.xlsx" (Str "auto")
    = Raise (FileNotFoundError "Excel file not found: nowhere.xlsx") /\
  load_word_article_pairs (via_pandas empty_frame) "words.xlsx" (Str "auto")
    = Raise (ValueError no_pairs_message) /\
  load_word_article_pairs (via_pandas single_frame) "words.xlsx" (Str "Horizontal")
    = Raise (ValueError no_pairs_message) /\
  load_word_article_pairs unreadable "words.xlsx" (Str "auto")
    = Raise (RuntimeError (read_failure_message "File is not a zip file")) /\
  load_word_article_pairs (via_openpyxl haus_rows) "words.xlsx" (Str "auto")
    = Raise (RuntimeError (read_failure_message "tuple index out of range")).
Proof.
  split; [|split; [|split; [|split]]].
  - apply (proj1 (loader_failure_modes unreadable "nowhere.xlsx" (Str "auto"))).
    reflexivity.
  - apply (proj1 (proj2 (loader_failure_modes (via_pandas empty_frame) "words.xlsx"
                           (Str "auto")))
             (mkFile (Some empty_frame) (inr "not used")) (Pandas empty_frame));
      reflexivity.
  - apply (proj1 (proj2 (loader_failure_modes (via_pandas single_frame) "words.xlsx"
                           (Str "Horizontal")))
             (mkFile (Some single_frame) (inr "not used")) (Pandas single_frame));
      reflexivity.
  - apply (proj1 (proj2 (proj2 (loader_failure_modes unreadable "words.xlsx"
                                  (Str "auto"))))
             (mkFile None (inr "File is not a zip file")) "File is not a zip file");
      reflexivity.
  - apply (proj1 (proj2 (proj2 (loader_failure_modes (via_openpyxl haus_rows)
                                  "words.xlsx" (Str "auto"))))
             (mkFile None (inl haus_rows)) "tuple index out of range");
      reflexivity.
Defined.

(* ================================================================== *)
(** * The scanning loop of the fallback reader *)
(* ================================================================== *)

Lemma ws_getitem_inside (ws : worksheet) (i : nat) :
  1 <= i -> i <= length ws -> ws_getitem ws i = Some (row_at ws i).
Proof.
  intros H1 H2. unfold ws_getitem, row_at. apply nth_error_nth'. lia.
Qed.

Lemma ws_getitem_beyond (ws : worksheet) (i : nat) :
  length ws < i -> ws_getitem ws i = None.
Proof. intros H. unfold ws_getitem. apply nth_error_None. lia. Qed.

(** A turn on a row of the sheet. *)
Lemma scan_body_inside (ws : worksheet) (st : scan_state) :
  1 <= sc_r st -> sc_r st <= length ws ->
  scan_body ws st =
  Return (if is_empty_row (row_at ws (sc_r st))
          then mkScan (sc_rows st) (sc_empty_streak st + 1) (sc_r st + 1)
          else mkScan (sc_rows st ++ [row_at ws (sc_r st)]) 0 (sc_r st + 1)).
Proof.
  intros H1 H2. unfold scan_body, is_empty_row.
  rewrite (ws_getitem_inside ws _ H1 H2).
  destruct (length (row_at ws (sc_r st)) =? 0); [reflexivity|].
  destruct (all_none (row_at ws (sc_r st))); reflexivity.
Qed.

(** A turn below the last row. *)
Lemma scan_body_beyond (ws : worksheet) (st : scan_state) :
  length ws < sc_r st -> scan_body ws st = Raise row_out_of_range.
Proof. intros H. unfold scan_body. now rewrite ws_getitem_beyond. Qed.

Lemma gap_at_true (ws : worksheet) (m : nat) :
  gap_at ws m = true <->
  10 <= m /\ m <= length ws /\
  forall i, m - 9 <= i -> i <= m -> is_empty_row (row_at ws i) = true.
Proof.
  unfold gap_at. rewrite !andb_true_iff, !Nat.leb_le, forallb_forall.
  split.
  - intros [[Hm Hl] H]. split; [exact Hm|]. split; [exact Hl|].
    intros i H1 H2. apply H. apply in_seq. lia.
  - intros (Hm & Hl & H). split; [split; assumption|].
    intros i Hi. apply in_seq in Hi. apply H; lia.
Qed.

Lemma gap_at_false (ws : worksheet) (m i : nat) :
  m - 9 <= i -> i <= m -> is_empty_row (row_at ws i) = false ->
  gap_at ws m = false.
Proof.
  intros H1 H2 Hi. destruct (gap_at ws m) eqn:E; [|reflexivity].
  apply gap_at_true in E as (_ & _ & E). rewrite (E i H1 H2) in Hi. discriminate Hi.
Qed.

Lemma gap_at_short (ws : worksheet) (m : nat) : m < 10 -> gap_at ws m = false.
Proof.
  intros H. destruct (gap_at ws m) eqn:E; [|reflexivity].
  apply gap_at_true in E as (E & _). lia.
Qed.

Lemma gap_at_beyond (ws : worksheet) (m : nat) : length ws < m -> gap_at ws m = false.
Proof.
  intros H. destruct (gap_at ws m) eqn:E; [|reflexivity].
  apply gap_at_true in E as (_ & E & _). lia.
Qed.

Lemma compact_S (ws : worksheet) (n : nat) :
  compact ws (S n) =
  compact ws n ++
  (if is_empty_row (row_at ws (S n)) then [] else [row_at ws (S n)]).
Proof.
  unfold compact. rewrite seq_S, map_app, filter_app. simpl.
  unfold nonempty_row. now destruct (is_empty_row (row_at ws (S n))).
Qed.

(** Empty rows add nothing to the compaction. *)
Lemma compact_skip (ws : worksheet) (k n : nat) :
  k <= n ->
  (forall i, k < i -> i <= n -> is_empty_row (row_at ws i) = true) ->
  compact ws n = compact ws k.
Proof.
  intros Hkn. induction Hkn as [|n Hkn IH]; intros H; [reflexivity|].
  rewrite compact_S, (H (S n)) by lia. rewrite app_nil_r.
  apply IH. intros i H1 H2. apply H; lia.
Qed.

Lemma filter_nonempty_empty_rows (l : list (list cell)) :
  Forall (fun rv => is_empty_row rv = true) l -> filter nonempty_row l = [].
Proof.
  induction 1 as [|rv l Hrv _ IH]; simpl; [reflexivity|].
  unfold nonempty_row at 1. now rewrite Hrv.
Qed.

(** The compaction of the first [n] rows, read off the list. *)
Lemma compact_firstn (ws : worksheet) (n : nat) :
  compact ws n = filter nonempty_row (firstn n ws).
Proof.
  unfold compact. revert n. induction ws as [|x ws IH]; intros n.
  - rewrite firstn_nil. apply filter_nonempty_empty_rows.
    apply Forall_forall. intros rv Hin. apply in_map_iff in Hin as [i [<- _]].
    unfold row_at. now destruct (i - 1).
  - destruct n as [|n]; [reflexivity|].
    simpl seq. rewrite <- seq_shift, map_cons, map_map. simpl firstn.
    change (row_at (x :: ws) 1) with x. simpl filter.
    rewrite <- IH.
    replace (map (fun i => row_at (x :: ws) (S i)) (seq 1 n))
      with (map (row_at ws) (seq 1 n)); [reflexivity|].
    apply map_ext_in. intros i Hi. apply in_seq in Hi.
    unfold row_at. destruct i as [|i]; [lia|]. simpl.
    now rewrite Nat.sub_0_r.
Qed.

Lemma scan_inv_init (ws : worksheet) : scan_inv ws scan_init.
Proof.
  unfold scan_inv, scan_init; simpl.
  repeat split; try lia; intros; lia.
Qed.

(** While the streak is short of ten, no run of ten is complete yet. *)
Lemma scan_inv_no_gap_yet (ws : worksheet) (st : scan_state) :
  scan_inv ws st -> sc_empty_streak st < 10 ->
  forall m, m < sc_r st -> gap_at ws m = false.
Proof.
  destruct st as [rows s r].
  intros (H1 & H2 & H3 & H4 & H5 & H6 & H7 & H8) Hs m Hm. simpl in *.
  destruct (Nat.eq_dec m (r - 1)) as [->|Hne]; [|apply H6; lia].
  destruct (le_lt_dec 10 (r - 1)) as [Hge|Hlt]; [|now apply gap_at_short].
  apply (gap_at_false ws (r - 1) (r - 1 - s)); [lia | lia | apply H5; lia].
Qed.

(** One turn of the loop on a row of the sheet keeps the invariant. *)
Lemma scan_inv_step (ws : worksheet) (st : scan_state) :
  scan_inv ws st -> sc_empty_streak st < 10 -> sc_r st <= length ws ->
  exists st', scan_body ws st = Return st' /\ scan_inv ws st' /\
              sc_r st' = sc_r st + 1.
Proof.
  intros Hinv Hs Hr.
  pose proof (scan_inv_no_gap_yet ws st Hinv Hs) as Hgap.
  destruct st as [rows s r].
  destruct Hinv as (H1 & H2 & H3 & H4 & H5 & H6 & H7 & H8). simpl in *.
  assert (Hc : compact ws r =
               compact ws (r - 1) ++
               (if is_empty_row (row_at ws r) then [] else [row_at ws r])).
  { destruct r as [|r']; [lia|]. replace (S r' - 1) with r' by lia. apply compact_S. }
  rewrite scan_body_inside by (simpl; lia). simpl.
  destruct (is_empty_row (row_at ws r)) eqn:E;
    (eexists; split; [reflexivity|]; split; [|reflexivity]);
    unfold scan_inv; simpl; replace (r + 1 - 1) with r by lia.
  - split; [lia|]. split; [lia|]. split; [lia|].
    split.
    { intros i Hi1 Hi2. destruct (Nat.eq_dec i r) as [->|Hne]; [exact E|].
      apply H4; lia. }
    split.
    { intros Hlt. replace (r - (s + 1)) with (r - 1 - s) by lia. apply H5. lia. }
    split; [exact Hgap|].
    split; [lia|].
    now rewrite Hc, app_nil_r.
  - split; [lia|]. split; [lia|]. split; [lia|].
    split; [intros i Hi1 Hi2; lia|].
    split; [intros _; now rewrite Nat.sub_0_r|].
    split; [exact Hgap|].
    split; [lia|].
    now rewrite Hc, H8.
Qed.

(** The loop ends within the fuel: it returns on ten empty rows read in
    a row, or raises when it asks for a row below the last one, which it
    does only if the sheet has no run of ten empty rows. *)
Lemma scan_loop_inv (ws : worksheet) (fuel : nat) :
  forall st, scan_inv ws st -> length ws + 1 <= fuel + (sc_r st - 1) ->
  (exists st', scan_loop fuel ws st = Some (Return st') /\ scan_inv ws st' /\
               sc_empty_streak st' = 10) \/
  (scan_loop fuel ws st = Some (Raise row_out_of_range) /\
   forall m, gap_at ws m = false).
Proof.
  induction fuel as [|fuel IH]; intros st Hinv Hfuel.
  - destruct Hinv as (_ & _ & _ & _ & _ & _ & H7 & _). lia.
  - cbn [scan_loop]. destruct (sc_empty_streak st <? 10) eqn:E.
    + apply Nat.ltb_lt in E.
      destruct (le_lt_dec (sc_r st) (length ws)) as [Hin|Hout].
      * destruct (scan_inv_step ws st Hinv E Hin) as [st1 (Hb & Hinv1 & Hr1)].
        pose proof (proj1 Hinv) as H1.
        rewrite Hb. apply IH; [exact Hinv1 | lia].
      * right. rewrite (scan_body_beyond ws st Hout). split; [reflexivity|].
        intros m. destruct (le_lt_dec (sc_r st) m) as [Hm|Hm].
        -- apply gap_at_beyond. lia.
        -- now apply (scan_inv_no_gap_yet ws st Hinv E).
    + apply Nat.ltb_ge in E. left. exists st.
      split; [reflexivity|]. split; [exact Hinv|].
      destruct Hinv as (_ & H2 & _). lia.
Qed.

Lemma scan_loop_terminates (ws : worksheet) :
  (exists st, scan_rows ws = Some (Return st) /\ scan_inv ws st /\
              sc_empty_streak st = 10) \/
  (scan_rows ws = Some (Raise row_out_of_range) /\ forall m, gap_at ws m = false).
Proof.
  unfold scan_rows. apply scan_loop_inv; [apply scan_inv_init | simpl; lia].
Qed.

(** The loop always ends.  When it returns, ten empty rows of the sheet
    have just been read for the first time, and [rows] is the compaction
    of the rows before them; it raises when the sheet has no such run. *)
Lemma scan_rows_spec (ws : worksheet) :
  (exists st, scan_rows ws = Some (Return st) /\
     sc_empty_streak st = 10 /\
     11 <= sc_r st /\
     sc_r st - 1 <= length ws /\
     first_gap_end ws (sc_r st - 1) /\
     sc_rows st = compact ws (sc_r st - 1) /\
     sc_rows st = filter nonempty_row (firstn (sc_r st - 11) ws)) \/
  (scan_rows ws = Some (Raise row_out_of_range) /\ forall m, gap_at ws m = false).
Proof.
  destruct (scan_loop_terminates ws) as [[st (Hrun & Hinv & Hs)] | Hraise];
    [left | right; exact Hraise].
  exists st. destruct Hinv as (H1 & H2 & H3 & H4 & H5 & H6 & H7 & H8).
  rewrite Hs in *.
  split; [exact Hrun|]. split; [reflexivity|]. split; [lia|]. split; [exact H7|].
  split; [|split; [exact H8|]].
  - split; [|exact H6].
    apply gap_at_true. split; [lia|]. split; [exact H7|].
    intros i Hi1 Hi2. apply H4; lia.
  - rewrite <- compact_firstn, H8.
    apply compact_skip; [lia|]. intros i Hi1 Hi2. apply H4; lia.
Qed.

Lemma read_rows_scan (ws : worksheet) (st : scan_state) :
  scan_rows ws = Some (Return st) -> read_rows ws = Return (sc_rows st).
Proof. intros H. unfold read_rows. now rewrite H. Qed.

Lemma read_rows_raise (ws : worksheet) (e : exn) :
  scan_rows ws = Some (Raise e) -> read_rows ws = Raise e.
Proof. intros H. unfold read_rows. now rewrite H. Qed.

(** On a sheet with a run of ten empty rows the scan returns. *)
Lemma scan_rows_returns (ws : worksheet) (m : nat) :
  gap_at ws m = true ->
  exists st, scan_rows ws = Some (Return st) /\
    sc_empty_streak st = 10 /\
    11 <= sc_r st /\
    sc_r st - 1 <= m /\
    first_gap_end ws (sc_r st - 1) /\
    sc_rows st = filter nonempty_row (firstn (sc_r st - 11) ws).
Proof.
  intros Hm.
  destruct (scan_rows_spec ws)
    as [[st (Hrun & Hs & Hr & Hl & Hfirst & _ & Hrows)] | [_ Hnone]];
    [|rewrite Hnone in Hm; discriminate Hm].
  exists st. repeat (split; [assumption|]). split; [|split; assumption].
  destruct (le_lt_dec (sc_r st - 1) m) as [H|H]; [exact H|].
  destruct Hfirst as [_ Hbefore]. rewrite (Hbefore m H) in Hm. discriminate Hm.
Qed.

Lemma no_gap_spec (ws : worksheet) :
  no_gap ws = true <-> forall m, gap_at ws m = false.
Proof.
  unfold no_gap. rewrite forallb_forall. split.
  - intros H m. destruct (le_lt_dec m (length ws)) as [Hm|Hm].
    + apply negb_true_iff. apply H. apply in_seq. lia.
    + now apply gap_at_beyond.
  - intros H m _. now rewrite H.
Qed.

(** On a sheet without such a run the scan reads every row and then
    asks for one too many. *)
Lemma scan_rows_raises (ws : worksheet) :
  no_gap ws = true -> scan_rows ws = Some (Raise row_out_of_range).
Proof.
  intros Hno. rewrite no_gap_spec in Hno.
  destruct (scan_rows_spec ws) as [[st (_ & _ & _ & _ & [Hgap _] & _)] | [Hrun _]];
    [|exact Hrun].
  rewrite Hno in Hgap. discriminate Hgap.
Qed.

Lemma row_at_app_l (p a : worksheet) (i : nat) :
  i <= length p -> 0 < length p -> row_at (p ++ a) i = row_at p i.
Proof. intros H1 H2. unfold row_at. apply app_nth1. lia. Qed.

Lemma row_at_app_r (p a : worksheet) (i : nat) :
  length p < i -> row_at (p ++ a) i = row_at a (i - length p).
Proof.
  intros H. unfold row_at. rewrite app_nth2 by lia. f_equal. lia.
Qed.

Lemma row_at_empty_rows (g : worksheet) (i : nat) :
  Forall (fun rv => is_empty_row rv = true) g -> is_empty_row (row_at g i) = true.
Proof.
  intros H. unfold row_at.
  destruct (le_lt_dec (length g) (i - 1)) as [Hge|Hlt].
  - now rewrite nth_overflow.
  - rewrite Forall_forall in H. apply H. now apply nth_In.
Qed.

(** The rows of a gap, seen from the sheet. *)
Lemma gap_rows_empty (before gap after : worksheet) (i : nat) :
  Forall (fun rv => is_empty_row rv = true) gap ->
  length before < i -> i <= length before + length gap ->
  is_empty_row (row_at (before ++ gap ++ after) i) = true.
Proof.
  intros Hgap H1 H2. rewrite row_at_app_r by exact H1.
  rewrite row_at_app_l by lia. now apply row_at_empty_rows.
Qed.

(** A gap of ten rows or more completes a run at its tenth row. *)
Lemma gap_at_in_gap (before gap after : worksheet) :
  Forall (fun rv => is_empty_row rv = true) gap -> 10 <= length gap ->
  gap_at (before ++ gap ++ after) (length before + 10) = true.
Proof.
  intros Hgap Hlen. apply gap_at_true. split; [lia|].
  split; [rewrite !length_app; lia|].
  intros i Hi1 Hi2. apply gap_rows_empty; [exact Hgap | lia | lia].
Qed.



(** The scan of a sheet with a gap of ten or more empty rows. *)
Lemma scan_rows_gap (before gap after : worksheet) :
  Forall (fun rv => is_empty_row rv = true) gap -> 10 <= length gap ->
  exists st, scan_rows (before ++ gap ++ after) = Some (Return st) /\
    sc_empty_streak st = 10 /\
    11 <= sc_r st /\
    first_gap_end (before ++ gap ++ after) (sc_r st - 1) /\
    sc_r st - 1 <= length before + 10 /\
    sc_rows st = filter nonempty_row (firstn (sc_r st - 11) before).
Proof.
  intros Hgap Hlen.
  destruct (scan_rows_returns _ _ (gap_at_in_gap before gap after Hgap Hlen))
    as [st (Hrun & Hs & Hr & Hbound & Hfirst & Hrows)].
  exists st. repeat (split; [assumption|]).
  rewrite Hrows, firstn_app.
  replace (sc_r st - 11 - length before) with 0 by lia.
  now rewrite firstn_0, app_nil_r.
Qed.




(** A sheet that ends with its data, as most do, cannot be read. *)
Example sheet_without_blank_tail_raises :
  read_rows haus_rows = Raise row_out_of_range /\
  load_word_article_pairs (via_openpyxl haus_rows) "words.xlsx" (Str "auto")
    = Raise (RuntimeError
        "Failed to read Excel with pandas or openpyxl. Details: tuple index out of range").
Proof. split; reflexivity. Qed.

(* ------------------------------------------------------------------ *)
(** ** The grid of the fallback reader *)
(* ------------------------------------------------------------------ *)

Lemma filter_valid_none_l (k : nat) (l : list cell) :
  filter valid_pair (combine (repeat PyNone k) l) = [].
Proof.
  revert l; induction k as [|k IH]; intros [|a l]; try reflexivity.
  cbn [repeat combine filter]. rewrite valid_pair_none_l. apply IH.
Qed.

Lemma filter_valid_none_r (k : nat) (l : list cell) :
  filter valid_pair (combine l (repeat PyNone k)) = [].
Proof.
  revert l; induction k as [|k IH]; intros [|w l]; try reflexivity.
  cbn [repeat combine filter]. rewrite valid_pair_none_r. apply IH.
Qed.

(** Padding with [None] adds no pair. *)
Lemma collect_pairs_padded (r1 r2 : list cell) (k1 k2 : nat) :
  collect_pairs (r1 ++ repeat PyNone k1) (r2 ++ repeat PyNone k2)
  = collect_pairs r1 r2.
Proof.
  rewrite !collect_pairs_filter. f_equal.
  revert r2; induction r1 as [|w r1 IH]; intros r2.
  - simpl. apply filter_valid_none_l.
  - destruct r2 as [|a r2].
    + change (@nil cell ++ repeat PyNone k2) with (repeat PyNone k2).
      rewrite (filter_valid_none_r k2 ((w :: r1) ++ repeat PyNone k1)).
      reflexivity.
    + cbn [List.app combine filter]. rewrite IH. reflexivity.
Qed.

Lemma pad_rows_spec (rows : list (list cell)) :
  pad_rows rows =
  map (fun rw => rw ++ repeat PyNone (max_len rows - length rw)) rows.
Proof.
  unfold pad_rows. apply map_ext. intros rw.
  destruct (length rw <? max_len rows) eqn:E; [reflexivity|].
  apply Nat.ltb_ge in E.
  replace (max_len rows - length rw) with 0 by lia.
  simpl. now rewrite app_nil_r.
Qed.

(** With two rows or more in the grid, the horizontal reading pairs the
    first with the second. *)
Lemma horizontal_pairs_of_rows (r1 r2 : list cell) (tail : list (list cell)) :
  build_horizontal_pairs (Fallback (mkWrapper (pad_rows (r1 :: r2 :: tail))))
  = collect_pairs r1 r2.
Proof.
  rewrite pad_rows_spec.
  unfold build_horizontal_pairs, horizontal_rows, shape0, shape, get_row.
  simpl. apply collect_pairs_padded.
Qed.



(** Rows without a run of ten empty ones, followed by such a run, are
    compacted as a whole. *)
Lemma read_rows_body_gap (body gap after : worksheet) :
  no_gap body = true ->
  Forall (fun rv => is_empty_row rv = true) gap -> 10 <= length gap ->
  read_rows (body ++ gap ++ after) = Return (filter nonempty_row body).
Proof.
  intros Hno Hgap Hlen. rewrite no_gap_spec in Hno.
  destruct (scan_rows_gap body gap after Hgap Hlen)
    as [st (Hrun & Hs & Hr & [Hend _] & Hbound & Hrows)].
  rewrite (read_rows_scan _ _ Hrun), Hrows. f_equal.
  apply gap_at_true in Hend as (_ & _ & Hend).
  destruct (le_lt_dec (length body) (sc_r st - 11)) as [Hall|Hpart].
  { now rewrite firstn_all2. }
  rewrite <- compact_firstn.
  rewrite <- (firstn_all body) at 2. rewrite <- compact_firstn.
  symmetry. apply compact_skip; [lia|].
  intros i Hi1 Hi2.
  destruct (le_lt_dec (sc_r st - 1) (length body)) as [Hinside|Hacross].
  - exfalso.
    assert (Hg : gap_at body (sc_r st - 1) = true).
    { apply gap_at_true. split; [lia|]. split; [exact Hinside|].
      intros j Hj1 Hj2.
      rewrite <- (row_at_app_l body (gap ++ after)) by lia.
      apply Hend; lia. }
    rewrite Hno in Hg. discriminate Hg.
  - rewrite <- (row_at_app_l body (gap ++ after)) by lia.
    apply Hend; lia.
Qed.



(* ================================================================== *)
(** * The quiz controller *)
(* ================================================================== *)

(** [round_div] is the nearest integer to the quotient ... *)
Lemma round_div_nearest (a b : nat) :
  0 < b ->
  2 * (a - round_div a b * b) <= b /\ 2 * (round_div a b * b - a) <= b.
Proof.
  intros Hb. unfold round_div.
  pose proof (Nat.div_mod_eq a b) as Hdm.
  pose proof (Nat.mod_upper_bound a b ltac:(lia)) as Hrem.
  set (q := a / b) in *. set (rem := a mod b) in *.
  destruct (2 * rem <? b) eqn:E1; [apply Nat.ltb_lt in E1; nia|].
  apply Nat.ltb_ge in E1.
  destruct (b <? 2 * rem) eqn:E2; [apply Nat.ltb_lt in E2; nia|].
  apply Nat.ltb_ge in E2.
  destruct (Nat.even q); nia.
Qed.

(** ... and on a tie it is the even neighbour. *)
Lemma round_div_tie_even (a b : nat) :
  0 < b ->
  2 * a = 2 * (round_div a b * b) + b \/ 2 * a + b = 2 * (round_div a b * b) ->
  Nat.even (round_div a b) = true.
Proof.
  intros Hb. unfold round_div.
  pose proof (Nat.div_mod_eq a b) as Hdm.
  pose proof (Nat.mod_upper_bound a b ltac:(lia)) as Hrem.
  set (q := a / b) in *. set (rem := a mod b) in *.
  destruct (2 * rem <? b) eqn:E1; [apply Nat.ltb_lt in E1; nia|].
  apply Nat.ltb_ge in E1.
  destruct (b <? 2 * rem) eqn:E2; [apply Nat.ltb_lt in E2; nia|].
  intros _. destruct (Nat.even q) eqn:Eq; [exact Eq|].
  rewrite Nat.add_1_r, Nat.even_succ. unfold Nat.odd. now rewrite Eq.
Qed.

Section QuizFacts.
Context {RS : RandomSource}.

(** C9. The accuracy the score label shows is 0 when [seen] is 0, and
    otherwise [score * 100 / seen] rounded to an integer: the nearest
    one, a tie going to the even one. *)
Theorem accuracy_is_rounded_percentage (st : app) :
  (seen st = 0 -> accuracy st = 0) /\
  (seen st <> 0 ->
     accuracy st = round_div (score st * 100) (seen st) /\
     2 * (score st * 100 - accuracy st * seen st) <= seen st /\
     2 * (accuracy st * seen st - score st * 100) <= seen st /\
     (2 * (score st * 100) = 2 * (accuracy st * seen st) + seen st \/
      2 * (score st * 100) + seen st = 2 * (accuracy st * seen st) ->
      Nat.even (accuracy st) = true)) /\
  score_label (ui (update_score_label st)) =
    ("Score: " ++ str_nat (score st) ++ " / " ++ str_nat (seen st)
       ++ " (" ++ str_nat (accuracy st) ++ "%)")%string.
Proof.
  split; [|split; [|reflexivity]].
  - intros H. unfold accuracy. now rewrite H.
  - intros H. unfold accuracy.
    destruct (seen st =? 0) eqn:E; [apply Nat.eqb_eq in E; contradiction|].
    split; [reflexivity|].
    pose proof (round_div_nearest (score st * 100) (seen st) ltac:(lia)) as [N1 N2].
    split; [exact N1|]. split; [exact N2|].
    apply round_div_tie_even. lia.
Qed.

(** C7. While [waiting_for_next] is set, [submit] returns at once: for
    any article the whole state, and so [score], [seen], the current
    word and article and the flag itself, is unchanged. *)
Theorem submit_ignored_while_awaiting (st : app) (guess : string) :
  waiting_for_next st = true -> submit guess st = Return st.
Proof. intros H. unfold submit. now rewrite H. Qed.

(* ------------------------------------------------------------------ *)
(** ** Drawing questions *)
(* ------------------------------------------------------------------ *)

Lemma permutation_nonempty (l l' : list pair_t) :
  Permutation l l' -> l <> [] -> l' <> [].
Proof.
  intros HP Hne Hnil. subst l'. apply Permutation_sym in HP.
  apply Permutation_nil in HP. contradiction.
Qed.

Lemma nth_error_head (l : list pair_t) : l <> [] -> exists p, nth_error l 0 = Some p.
Proof. destruct l as [|p l]; [congruence|]. intros _. now exists p. Qed.

(** What a draw does, once the indexed entry exists. *)
Lemma next_question_spec (st : app) (p : pair_t) :
  nth_error (deck_used st) (index_used st) = Some p ->
  exists st', next_question st = Return st' /\
    deck st' = deck_used st /\
    idx st' = index_used st + 1 /\
    pairs st' = (if length (deck st) <=? idx st
                 then snd (shuffle (gen st) (pairs st)) else pairs st) /\
    gen st' = (if length (deck st) <=? idx st
               then fst (shuffle (gen st) (pairs st)) else gen st) /\
    current st' = Some p /\
    seen st' = seen st + 1 /\
    score st' = score st /\
    waiting_for_next st' = false /\
    scheduled st' = scheduled st /\
    btn_start (ui st') = btn_start (ui st).
Proof.
  unfold deck_used, index_used, next_question, reshuffle.
  destruct st as [ps dk i w sc sn cur g sch u]; simpl.
  assert (Hw : (if w then mkApp ps dk i false sc sn cur g sch u
                else mkApp ps dk i w sc sn cur g sch u)
               = mkApp ps dk i false sc sn cur g sch u) by now destruct w.
  rewrite Hw. clear Hw. simpl.
  destruct (length dk <=? i).
  - destruct (shuffle g ps) as [g' ps']; simpl.
    intros Hnth; rewrite Hnth; destruct p as [cw ca].
    eexists; split; [reflexivity|]; simpl; repeat split; reflexivity.
  - simpl. intros Hnth; rewrite Hnth; destruct p as [cw ca].
    eexists; split; [reflexivity|]; simpl; repeat split; reflexivity.
Qed.

(** The index a draw uses is inside the deck it uses. *)
Lemma index_used_in_range (st : app) :
  pairs st <> [] -> index_used st < length (deck_used st).
Proof.
  intros Hne. unfold index_used, deck_used.
  destruct (length (deck st) <=? idx st) eqn:E.
  - pose proof (permutation_nonempty _ _ (shuffle_perm (gen st) (pairs st)) Hne) as H.
    destruct (snd (shuffle (gen st) (pairs st))); [congruence | simpl; lia].
  - now apply Nat.leb_gt in E.
Qed.

Lemma next_question_ok (st : app) :
  pairs st <> [] ->
  exists st', next_question st = Return st' /\
    deck st' = deck_used st /\
    idx st' = index_used st + 1 /\
    idx st' <= length (deck st') /\
    current st' = nth_error (deck st') (idx st' - 1) /\
    Permutation (pairs st) (pairs st') /\
    seen st' = seen st + 1 /\
    score st' = score st /\
    waiting_for_next st' = false /\
    scheduled st' = scheduled st /\
    btn_start (ui st') = btn_start (ui st).
Proof.
  intros Hne. pose proof (index_used_in_range st Hne) as Hlt.
  destruct (nth_error (deck_used st) (index_used st)) as [p|] eqn:Hnth.
  - destruct (next_question_spec st p Hnth)
      as [st' (Hq & Hd & Hi & Hp & Hg & Hc & Hsn & Hsc & Hw & Hsch & Hb)].
    exists st'. split; [exact Hq|]. split; [exact Hd|]. split; [exact Hi|].
    split; [rewrite Hi, Hd; lia|].
    split; [rewrite Hc, Hd, Hi, <- Hnth; f_equal; lia|].
    split.
    { rewrite Hp. destruct (length (deck st) <=? idx st);
        [apply shuffle_perm | apply Permutation_refl]. }
    auto 10.
  - apply nth_error_None in Hnth. lia.
Qed.

(** Any number of draws goes through. *)
Lemma draws_ok (k : nat) :
  forall st, pairs st <> [] -> exists st', draws k st = Return st' /\ pairs st' <> [].
Proof.
  induction k as [|k IH]; intros st Hne.
  - exists st. auto.
  - destruct (next_question_ok st Hne) as [st1 (Hq & _ & _ & _ & _ & HP & _)].
    simpl. rewrite Hq. apply IH. exact (permutation_nonempty _ _ HP Hne).
Qed.

(** Draws that stay inside the deck leave it alone. *)
Lemma draws_within_deck (k : nat) :
  forall st, pairs st <> [] -> idx st + k <= length (deck st) ->
  exists st', draws k st = Return st' /\
    idx st' = idx st + k /\ deck st' = deck st /\
    pairs st' = pairs st /\ gen st' = gen st.
Proof.
  induction k as [|k IH]; intros st Hne Hk.
  - exists st. simpl. repeat split; lia.
  - assert (E : (length (deck st) <=? idx st) = false) by (apply Nat.leb_gt; lia).
    assert (Hlt : idx st < length (deck st)) by lia.
    apply nth_error_Some in Hlt.
    destruct (nth_error (deck st) (idx st)) as [p|] eqn:Hnth; [|congruence].
    destruct (next_question_spec st p) as [st1 (Hq & Hd & Hi & Hp & Hg & _)].
    { unfold deck_used, index_used. now rewrite E. }
    unfold deck_used in Hd. unfold index_used in Hi. rewrite E in Hd, Hi, Hp, Hg.
    destruct (IH st1) as [st' (Hdr & Hi' & Hd' & Hp' & Hg')].
    { now rewrite Hp. }
    { rewrite Hi, Hd. lia. }
    exists st'. simpl. rewrite Hq. split; [exact Hdr|].
    rewrite Hi', Hd', Hp', Hg', Hi, Hd, Hp, Hg. repeat split; lia.
Qed.

(** [start_quiz]: a fresh deck, the counters reset, and the first draw. *)
Lemma start_quiz_spec (st : app) :
  pairs st <> [] ->
  exists st1, start_quiz st = Return st1 /\
    deck st1 = snd (shuffle (gen st) (pairs st)) /\
    pairs st1 = deck st1 /\
    gen st1 = fst (shuffle (gen st) (pairs st)) /\
    idx st1 = 1 /\ score st1 = 0 /\ seen st1 = 1 /\
    current st1 = nth_error (deck st1) 0 /\
    waiting_for_next st1 = false /\
    scheduled st1 = scheduled st /\
    btn_start (ui st1) = false.
Proof.
  intros Hne.
  pose proof (permutation_nonempty _ _ (shuffle_perm (gen st) (pairs st)) Hne) as Hps.
  unfold start_quiz, reshuffle.
  destruct (shuffle (gen st) (pairs st)) as [g ps] eqn:Es. simpl in Hps |- *.
  destruct ps as [|p ps]; [congruence|].
  match goal with |- exists st1, next_question ?s = _ /\ _ =>
    destruct (next_question_spec s p) as [st1 (Hq & Hd & Hi & Hp & Hg & Hc & Hsn & Hsc & Hw & Hsch & Hb)];
      [reflexivity|]
  end.
  exists st1. split; [exact Hq|].
  unfold deck_used, index_used in *. simpl in *.
  rewrite Hd, Hp, Hg, Hi, Hc, Hsn, Hsc, Hw, Hsch, Hb. repeat split; reflexivity.
Qed.

(** C8. With a non-empty pair list a draw never indexes the deck out of
    range: the index used is below the length of the deck used, the
    draw succeeds, and so does any run of draws.  After [start_quiz] and
    [len(pairs) - 1] further draws, [len(pairs)] draws in all, the
    pointer equals [len(pairs)], the deck's length; the draw after that
    reshuffles the pair set into a new deck, resets the pointer to 0 and
    indexes there, leaving the pointer at 1. *)
Theorem deck_never_indexed_out_of_range (st : app) :
  pairs st <> [] ->
  index_used st < length (deck_used st) /\
  (exists st', next_question st = Return st' /\
     deck st' = deck_used st /\ idx st' = index_used st + 1 /\
     current st' = nth_error (deck_used st) (index_used st) /\
     Permutation (pairs st) (pairs st')) /\
  (forall k, exists st', draws k st = Return st') /\
  (exists st1 stn st',
     start_quiz st = Return st1 /\
     draws (length (pairs st) - 1) st1 = Return stn /\
     idx stn = length (pairs st) /\
     length (deck stn) = length (pairs st) /\
     deck stn = deck st1 /\
     next_question stn = Return st' /\
     deck st' = snd (shuffle (gen stn) (pairs stn)) /\
     Permutation (pairs st) (deck st') /\
     index_used stn = 0 /\
     idx st' = 1).
Proof.
  intros Hne.
  split; [now apply index_used_in_range|].
  split.
  { destruct (next_question_ok st Hne)
      as [st' (Hq & Hd & Hi & Hle & Hc & HP & _)].
    exists st'. split; [exact Hq|]. split; [exact Hd|]. split; [exact Hi|].
    split; [|exact HP].
    rewrite Hc, Hd, Hi. f_equal. lia. }
  split.
  { intros k. destruct (draws_ok k st Hne) as [st' [H _]]. now exists st'. }
  destruct (start_quiz_spec st Hne)
    as [st1 (Hs & Hd1 & Hp1 & Hg1 & Hi1 & _)].
  pose proof (shuffle_perm (gen st) (pairs st)) as HP1. rewrite <- Hd1 in HP1.
  pose proof (Permutation_length HP1) as Hlen1.
  assert (Hne1 : pairs st1 <> []).
  { rewrite Hp1. exact (permutation_nonempty _ _ HP1 Hne). }
  assert (Hpos : 1 <= length (pairs st)).
  { destruct (pairs st); [congruence | simpl; lia]. }
  destruct (draws_within_deck (length (pairs st) - 1) st1 Hne1)
    as [stn (Hdr & Hin & Hdn & Hpn & Hgn)]; [rewrite Hi1; lia|].
  assert (Hnen : pairs stn <> []) by now rewrite Hpn.
  destruct (next_question_ok stn Hnen)
    as [st' (Hq & Hd' & Hi' & _)].
  assert (Efresh : (length (deck stn) <=? idx stn) = true).
  { apply Nat.leb_le. rewrite Hdn, Hin, Hi1. lia. }
  unfold deck_used in Hd'. unfold index_used in Hi'. rewrite Efresh in Hd', Hi'.
  exists st1, stn, st'.
  split; [exact Hs|]. split; [exact Hdr|].
  split; [rewrite Hin, Hi1; lia|].
  split; [rewrite Hdn; lia|].
  split; [exact Hdn|]. split; [exact Hq|]. split; [exact Hd'|].
  split.
  { rewrite Hd', Hpn, Hp1.
    eapply Permutation_trans; [exact HP1 | apply shuffle_perm]. }
  split; [unfold index_used; now rewrite Efresh | exact Hi'].
Qed.

(* ------------------------------------------------------------------ *)
(** ** Answering *)
(* ------------------------------------------------------------------ *)

(** A draw from a started quiz with nothing pending shows a question. *)
Lemma next_question_running (st : app) :
  pairs st <> [] -> btn_start (ui st) = false -> scheduled st = 0 ->
  exists st', next_question st = Return st' /\
    score st' = score st /\ seen st' = seen st + 1 /\ Running st'.
Proof.
  intros Hne Hb Hsch. pose proof (index_used_in_range st Hne) as Hlt.
  apply nth_error_Some in Hlt.
  destruct (nth_error (deck_used st) (index_used st)) as [[cw ca]|] eqn:Hnth;
    [|congruence].
  destruct (next_question_spec st (cw, ca) Hnth)
    as [st' (Hq & Hd & Hi & Hp & Hg & Hc & Hsn & Hsc & Hw & Hsch' & Hb')].
  exists st'. split; [exact Hq|]. split; [exact Hsc|]. split; [exact Hsn|].
  unfold Running. split; [exact Hw|]. split; [now exists cw, ca|].
  split; [congruence|]. split; [congruence|].
  rewrite Hp. destruct (length (deck st) <=? idx st); [|exact Hne].
  exact (permutation_nonempty _ _ (shuffle_perm (gen st) (pairs st)) Hne).
Qed.

Lemma submit_correct (st : app) (w a : string) :
  waiting_for_next st = false -> current st = Some (w, a) ->
  exists st1, submit a st = Return st1 /\
    score st1 = score st + 1 /\ seen st1 = seen st /\
    waiting_for_next st1 = false /\ scheduled st1 = scheduled st + 1 /\
    current st1 = current st /\ pairs st1 = pairs st /\ deck st1 = deck st /\
    idx st1 = idx st /\ gen st1 = gen st /\
    btn_start (ui st1) = btn_start (ui st).
Proof.
  intros Hw Hc. unfold submit. rewrite Hw, Hc, String.eqb_refl.
  eexists. split; [reflexivity|]. simpl.
  repeat split; try reflexivity; congruence.
Qed.

Lemma submit_wrong (st : app) (w a guess : string) :
  waiting_for_next st = false -> current st = Some (w, a) -> guess <> a ->
  exists st1, submit guess st = Return st1 /\
    score st1 = score st /\ seen st1 = seen st /\
    waiting_for_next st1 = true /\ scheduled st1 = scheduled st /\
    current st1 = current st /\ pairs st1 = pairs st /\ deck st1 = deck st /\
    idx st1 = idx st /\ gen st1 = gen st /\
    btn_start (ui st1) = btn_start (ui st) /\
    btn_options (ui st1) = false /\ btn_next (ui st1) = true.
Proof.
  intros Hw Hc Hne. unfold submit. rewrite Hw, Hc.
  apply String.eqb_neq in Hne. rewrite Hne.
  eexists. split; [reflexivity|]. simpl.
  repeat split; try reflexivity; congruence.
Qed.

(** C6, as amended.  From a Running state: a correct guess raises
    [score] by 1 at once, [seen] staying as it is, and schedules the
    automatic advance, whose draw then raises [seen] by 1; an incorrect
    guess leaves [score] and [seen] as they are and sets the state to
    AwaitingAcknowledgment, where submitting, clicking an article, Start
    or the timer change nothing, until Next or a key press draws the
    next question, which raises [seen] by 1 and returns to Running. *)
Theorem answers_update_score_and_seen (st : app) (w a guess : string) :
  Running st -> current st = Some (w, a) ->
  (guess = a ->
   exists st1 st2,
     submit guess st = Return st1 /\
     score st1 = score st + 1 /\ seen st1 = seen st /\
     waiting_for_next st1 = false /\ scheduled st1 = 1 /\
     dispatch TimerFires st1 = Return st2 /\
     score st2 = score st + 1 /\ seen st2 = seen st + 1 /\ Running st2) /\
  (guess <> a ->
   exists st1,
     submit guess st = Return st1 /\
     score st1 = score st /\ seen st1 = seen st /\
     AwaitingAcknowledgment st1 /\ current st1 = current st /\
     (forall g, submit g st1 = Return st1) /\
     (forall g, dispatch (ClickArticle g) st1 = Return st1) /\
     dispatch ClickStart st1 = Return st1 /\
     dispatch TimerFires st1 = Return st1 /\
     (forall e, e = ClickNext \/ (exists k, e = KeyPress k) ->
        exists st2, dispatch e st1 = Return st2 /\
          score st2 = score st /\ seen st2 = seen st + 1 /\ Running st2)).
Proof.
  intros (Hw & _ & Hsch & Hstart & Hne) Hc. split.
  - intros ->.
    destruct (submit_correct st w a Hw Hc)
      as [st1 (Hs & Hsc & Hsn & Hw1 & Hsch1 & Hc1 & Hp1 & Hd1 & Hi1 & Hg1 & Hb1)].
    rewrite Hsch in Hsch1. simpl in Hsch1.
    destruct (next_question_running
                (mkApp (pairs st1) (deck st1) (idx st1) (waiting_for_next st1)
                       (score st1) (seen st1) (current st1) (gen st1) 0 (ui st1)))
      as [st2 (Hq & Hsc2 & Hsn2 & Hrun)]; simpl; try congruence.
    simpl in Hsc2, Hsn2.
    exists st1, st2. repeat (split; [assumption|]).
    split; [unfold dispatch; now rewrite Hsch1|].
    split; [lia|]. split; [lia | exact Hrun].
  - intros Hneq.
    destruct (submit_wrong st w a guess Hw Hc Hneq)
      as [st1 (Hs & Hsc & Hsn & Hw1 & Hsch1 & Hc1 & Hp1 & Hd1 & Hi1 & Hg1 & Hb1 & Ho1 & Hn1)].
    exists st1. repeat (split; [assumption|]).
    split; [intros g; unfold submit; now rewrite Hw1|].
    split; [intros g; unfold dispatch; now rewrite Ho1|].
    split; [unfold dispatch; now rewrite Hb1, Hstart|].
    split; [unfold dispatch; now rewrite Hsch1, Hsch|].
    intros e He.
    destruct (next_question_running st1) as [st2 (Hq & Hsc2 & Hsn2 & Hrun)];
      try congruence.
    exists st2. split; [|split; [lia | split; [lia | exact Hrun]]].
    destruct He as [-> | [k ->]]; unfold dispatch, on_key.
    + now rewrite Hn1.
    + now rewrite Hw1.
Qed.

End QuizFacts.

(* ------------------------------------------------------------------ *)
(** ** The sample quiz, step by step *)
(* ------------------------------------------------------------------ *)

Lemma demo_started_running : Running demo_started.
Proof.
  unfold Running. split; [reflexivity|].
  split; [exists "Frau", "die"; reflexivity|].
  split; [reflexivity|]. split; [reflexivity | discriminate].
Defined.

Lemma accuracy_is_rounded_percentage_witness :
  accuracy (tally 0 0) = 0 /\
  accuracy (tally 3 8) = 38 /\
  accuracy (tally 1 8) = 12 /\
  score_label (ui (update_score_label (tally 3 8))) = "Score: 3 / 8 (38%)".
Proof.
  split; [|split; [|split]].
  - apply (proj1 (accuracy_is_rounded_percentage (tally 0 0))). reflexivity.
  - destruct (proj1 (proj2 (accuracy_is_rounded_percentage (tally 3 8)))) as [H _].
    + discriminate.
    + exact H.
  - destruct (proj1 (proj2 (accuracy_is_rounded_percentage (tally 1 8)))) as [H _].
    + discriminate.
    + exact H.
  - exact (proj2 (proj2 (accuracy_is_rounded_percentage (tally 3 8)))).
Defined.

Lemma submit_ignored_while_awaiting_witness :
  submit "die" demo_waiting = Return demo_waiting.
Proof.
  apply (submit_ignored_while_awaiting demo_waiting "die"). reflexivity.
Defined.

Lemma deck_never_indexed_out_of_range_witness :
  index_used (@init_app reversing_source 0 demo_pairs)
    < length (deck_used (@init_app reversing_source 0 demo_pairs)) /\
  exists st1 stn st',
    start_quiz (@init_app reversing_source 0 demo_pairs) = Return st1 /\
    draws 2 st1 = Return stn /\ idx stn = 3 /\ length (deck stn) = 3 /\
    next_question stn = Return st' /\ index_used stn = 0 /\ idx st' = 1.
Proof.
  destruct (deck_never_indexed_out_of_range (@init_app reversing_source 0 demo_pairs))
    as (H1 & _ & _ & st1 & stn & st' & Hs & Hd & Hi & Hl & _ & Hq & _ & _ & Hu & Hi').
  - discriminate.
  - split; [exact H1|].
    exists st1, stn, st'.
    exact (conj Hs (conj Hd (conj Hi (conj Hl (conj Hq (conj Hu Hi')))))).
Defined.

(** C6, as stated, fails.  In the sample quiz, Running with Frau shown
    and [seen] = 1, the wrong guess der sets AwaitingAcknowledgment with
    [seen] still 1, not 2: [seen] counts the questions drawn, and only
    [next_question] raises it.  Likewise the right guess die raises
    [score] to 1 and leaves [seen] at 1 until the automatic advance. *)
Lemma wrong_answer_leaves_seen_unchanged :
  Running demo_started /\
  current demo_started = Some ("Frau", "die") /\
  score demo_started = 0 /\ seen demo_started = 1 /\
  submit "der" demo_started = Return demo_waiting /\
  AwaitingAcknowledgment demo_waiting /\
  score demo_waiting = 0 /\ seen demo_waiting = 1 /\
  seen demo_waiting <> seen demo_started + 1 /\
  (exists st1, submit "die" demo_started = Return st1 /\
     score st1 = 1 /\ seen st1 = 1).
Proof.
  split; [exact demo_started_running|].
  repeat (split; [reflexivity|]).
  split; [discriminate|].
  eexists. split; [reflexivity|]. split; reflexivity.
Qed.

Lemma answers_update_score_and_seen_witness :
  (exists st1 st2,
     submit "die" demo_started = Return st1 /\
     score st1 = 1 /\ seen st1 = 1 /\
     dispatch TimerFires st1 = Return st2 /\
     score st2 = 1 /\ seen st2 = 2 /\ Running st2) /\
  (exists st1,
     submit "der" demo_started = Return st1 /\
     score st1 = 0 /\ seen st1 = 1 /\ AwaitingAcknowledgment st1 /\
     submit "die" st1 = Return st1 /\
     exists st2, dispatch ClickNext st1 = Return st2 /\
       score st2 = 0 /\ seen st2 = 2 /\ Running st2).
Proof.
  split.
  - destruct (proj1 (answers_update_score_and_seen demo_started "Frau" "die" "die"
                       demo_started_running eq_refl) eq_refl)
      as (st1 & st2 & H1 & H2 & H3 & _ & _ & H6 & H7 & H8 & H9).
    exists st1, st2.
    exact (conj H1 (conj H2 (conj H3 (conj H6 (conj H7 (conj H8 H9)))))).
  - destruct (proj2 (answers_update_score_and_seen demo_started "Frau" "die" "der"
                       demo_started_running eq_refl))
      as (st1 & H1 & H2 & H3 & H4 & _ & H6 & _ & _ & _ & H10).
    + discriminate.
    + destruct (H10 ClickNext (or_introl eq_refl)) as (st2 & G1 & G2 & G3 & G4).
      exists st1. split; [exact H1|]. split; [exact H2|]. split; [exact H3|].
      split; [exact H4|]. split; [exact (H6 "die")|].
      exists st2. exact (conj G1 (conj G2 (conj G3 G4))).
Defined.

(* ================================================================== *)
(** * More about the loader *)
(* ================================================================== *)

(* ------------------------------------------------------------------ *)
(** ** The shape of the pairs it returns *)
(* ------------------------------------------------------------------ *)

(** What [_clean] returns has no blank at either end. *)
Lemma clean_is_trimmed (c : cell) :
  ~ starts_blank (bytes (_clean c)) /\ ~ ends_blank (bytes (_clean c)).
Proof.
  destruct c as [|t]; cbn [_clean].
  - split; [apply not_starts_blank_nil | apply not_ends_blank_nil].
  - destruct (proj1 (strip_spec t (strip t)) eq_refl)
      as (pre & post & _ & _ & _ & Hs & He).
    now split.
Qed.

Lemma normalise_clean_pair (wa : cell * cell) :
  valid_pair wa = true -> clean_pair (normalise wa).
Proof.
  intros H. unfold valid_pair in H. apply andb_true_iff in H as [Hw Ha].
  apply negb_true_iff, String.eqb_neq in Hw.
  rewrite !orb_true_iff, !String.eqb_eq in Ha.
  unfold clean_pair, normalise; cbn [fst snd].
  destruct (clean_is_trimmed (fst wa)) as [Hs He].
  split; [exact Hw|]. split; [exact Hs|]. split; [exact He|].
  destruct Ha as [[-> | ->] | ->]; simpl; auto.
Qed.

Lemma kept_pairs_clean (l : list (cell * cell)) :
  Forall clean_pair (map normalise (filter valid_pair l)).
Proof.
  apply Forall_forall. intros p Hin. apply in_map_iff in Hin as [wa [<- Hin]].
  apply filter_In in Hin as [_ Hv]. now apply normalise_clean_pair.
Qed.

Lemma chosen_pairs_is_a_reading (df : df_like) (o : orientation_arg) :
  chosen_pairs df o = build_vertical_pairs df \/
  chosen_pairs df o = build_horizontal_pairs df.
Proof.
  unfold chosen_pairs.
  destruct (String.eqb _ "vertical"); [now left|].
  destruct (String.eqb _ "horizontal"); [now right|].
  destruct (_ <=? _); [now left | now right].
Qed.

Lemma load_returns (fs : filesystem) (path : string) (o : orientation_arg)
    (ps : list pair_t) :
  load_word_article_pairs fs path o = Return ps ->
  exists f df, fs path = Some f /\ read_grid f = Return df /\
               ps = chosen_pairs df o /\ ps <> [].
Proof.
  unfold load_word_article_pairs.
  destruct (fs path) as [f|] eqn:Hf; [|discriminate].
  destruct (read_grid f) as [df|e] eqn:Hg; [|discriminate].
  unfold choose_pairs. destruct (chosen_pairs df o) as [|p l] eqn:E; [discriminate|].
  intros H. injection H as <-. exists f, df.
  split; [reflexivity|]. split; [exact Hg|]. split; [now rewrite E | discriminate].
Qed.

Lemma loader_clean
    (fs : filesystem) (path : string) (o : orientation_arg) (ps : list pair_t) :
  load_word_article_pairs fs path o = Return ps ->
  ps <> [] /\ Forall clean_pair ps.
Proof.
  intros H. apply load_returns in H as (f & df & _ & _ & -> & Hne).
  split; [exact Hne|].
  destruct (chosen_pairs_is_a_reading df o) as [-> | ->].
  - rewrite build_vertical_pairs_filter. apply kept_pairs_clean.
  - rewrite build_horizontal_pairs_filter. apply kept_pairs_clean.
Qed.

(** Whatever the path and the orientation, a list the loader returns is
    not empty, and each of its pairs has a non-empty word that neither
    starts nor ends with a blank, of any of the kinds [str.strip]
    removes, and an article that is der, die or das. *)
Theorem loader_returns_clean_pairs
    (fs : filesystem) (path : string) (o : orientation_arg) (ps : list pair_t) :
  load_word_article_pairs fs path o = Return ps ->
  ps <> [] /\ Forall clean_pair ps.
Proof. apply loader_clean. Qed.

Lemma loader_returns_clean_pairs_witness :
  [("Haus", "der"); ("Mann", "der"); ("nan", "die")] <> [] /\
  Forall clean_pair [("Haus", "der"); ("Mann", "der"); ("nan", "die")].
Proof.
  apply (loader_returns_clean_pairs (via_pandas mixed_frame) "words.xlsx" (Str "auto")).
  vm_compute. reflexivity.
Defined.

(* ------------------------------------------------------------------ *)
(** ** The orientation *)
(* ------------------------------------------------------------------ *)

(** With orientation auto the loader fails exactly when both readings
    are empty, and a list it returns is at least as long as either
    reading. *)
Theorem auto_fails_only_when_both_readings_are_empty
    (fs : filesystem) (path : string) (f : xlsx_file) (df : df_like) :
  fs path = Some f -> read_grid f = Return df ->
  (load_word_article_pairs fs path (Str "auto") = Raise (ValueError no_pairs_message)
   <-> build_vertical_pairs df = [] /\ build_horizontal_pairs df = []) /\
  (forall ps, load_word_article_pairs fs path (Str "auto") = Return ps ->
     length (build_vertical_pairs df) <= length ps /\
     length (build_horizontal_pairs df) <= length ps).
Proof.
  intros Hf Hg. rewrite (load_of_grid fs path f df _ Hf Hg).
  unfold choose_pairs. rewrite chosen_pairs_auto.
  destruct (length (build_horizontal_pairs df) <=? length (build_vertical_pairs df)) eqn:E.
  - apply Nat.leb_le in E. split.
    + split.
      * destruct (build_vertical_pairs df) eqn:Ev; [|discriminate].
        intros _. split; [reflexivity|].
        destruct (build_horizontal_pairs df); [reflexivity | simpl in E; lia].
      * intros [-> _]. reflexivity.
    + intros ps H.
      destruct (build_vertical_pairs df) as [|p l] eqn:Ev; [discriminate|].
      injection H as <-. simpl in *. lia.
  - apply Nat.leb_gt in E. split.
    + split.
      * destruct (build_horizontal_pairs df) eqn:Eh; [simpl in E; lia | discriminate].
      * intros [_ ->]. reflexivity.
    + intros ps H.
      destruct (build_horizontal_pairs df) as [|p l] eqn:Eh; [discriminate|].
      injection H as <-. simpl in *. lia.
Qed.

Lemma auto_fails_only_when_both_readings_are_empty_witness :
  (load_word_article_pairs (via_pandas lone_cell_frame) "words.xlsx" (Str "auto")
     = Raise (ValueError no_pairs_message)
   <-> build_vertical_pairs (Pandas lone_cell_frame) = [] /\
       build_horizontal_pairs (Pandas lone_cell_frame) = []) /\
  (forall ps,
     load_word_article_pairs (via_pandas lone_cell_frame) "words.xlsx" (Str "auto")
       = Return ps ->
     length (build_vertical_pairs (Pandas lone_cell_frame)) <= length ps /\
     length (build_horizontal_pairs (Pandas lone_cell_frame)) <= length ps).
Proof.
  apply (auto_fails_only_when_both_readings_are_empty
           (via_pandas lone_cell_frame) "words.xlsx"
           (mkFile (Some lone_cell_frame) (inr "not used")) (Pandas lone_cell_frame));
    reflexivity.
Defined.

(** A forced orientation is matched without regard to case and decides
    alone: the loader returns that reading when it is not empty and
    raises [ValueError] when it is, whatever the other reading holds.
    Any other string, and any argument that is not a string, means auto. *)
Theorem forced_orientation_decides_alone
    (fs : filesystem) (path : string) (f : xlsx_file) (df : df_like) :
  fs path = Some f -> read_grid f = Return df ->
  (forall s, lower s = "vertical" ->
     load_word_article_pairs fs path (Str s) =
     match build_vertical_pairs df with
     | [] => Raise (ValueError no_pairs_message)
     | ps => Return ps
     end) /\
  (forall s, lower s = "horizontal" ->
     load_word_article_pairs fs path (Str s) =
     match build_horizontal_pairs df with
     | [] => Raise (ValueError no_pairs_message)
     | ps => Return ps
     end) /\
  (forall s, lower s <> "vertical" -> lower s <> "horizontal" ->
     load_word_article_pairs fs path (Str s)
     = load_word_article_pairs fs path (Str "auto")) /\
  load_word_article_pairs fs path NotStr = load_word_article_pairs fs path (Str "auto").
Proof.
  intros Hf Hg. rewrite !(load_of_grid fs path f df _ Hf Hg).
  split; [|split; [|split]].
  - intros s Hs. rewrite (load_of_grid fs path f df _ Hf Hg).
    unfold choose_pairs, chosen_pairs. now rewrite Hs.
  - intros s Hs. rewrite (load_of_grid fs path f df _ Hf Hg).
    unfold choose_pairs, chosen_pairs. now rewrite Hs.
  - intros s Hv Hh. rewrite (load_of_grid fs path f df _ Hf Hg).
    unfold choose_pairs, chosen_pairs.
    apply String.eqb_neq in Hv, Hh. now rewrite Hv, Hh.
  - reflexivity.
Qed.

Lemma forced_orientation_decides_alone_witness :
  load_word_article_pairs (via_pandas wide_frame) "words.xlsx" (Str "Vertical")
    = Return [("Haus", "das"); ("Mann", "der")] /\
  load_word_article_pairs (via_pandas single_frame) "words.xlsx" (Str "HORIZONTAL")
    = Raise (ValueError no_pairs_message) /\
  load_word_article_pairs (via_pandas wide_frame) "words.xlsx" (Str "sideways")
    = load_word_article_pairs (via_pandas wide_frame) "words.xlsx" (Str "auto").
Proof.
  split; [|split].
  - apply (proj1 (forced_orientation_decides_alone
                    (via_pandas wide_frame) "words.xlsx"
                    (mkFile (Some wide_frame) (inr "not used")) (Pandas wide_frame)
                    eq_refl eq_refl) "Vertical").
    reflexivity.
  - apply (proj1 (proj2 (forced_orientation_decides_alone
                    (via_pandas single_frame) "words.xlsx"
                    (mkFile (Some single_frame) (inr "not used")) (Pandas single_frame)
                    eq_refl eq_refl)) "HORIZONTAL").
    reflexivity.
  - apply (proj1 (proj2 (proj2 (forced_orientation_decides_alone
                    (via_pandas wide_frame) "words.xlsx"
                    (mkFile (Some wide_frame) (inr "not used")) (Pandas wide_frame)
                    eq_refl eq_refl))) "sideways"); discriminate.
Defined.

(* ------------------------------------------------------------------ *)
(** ** Horizontal sheets and grids too small to read *)
(* ------------------------------------------------------------------ *)

Lemma vertical_pairs_bound (df : df_like) :
  length (build_vertical_pairs df) <= length (grid df).
Proof.
  rewrite build_vertical_pairs_filter, length_map.
  etransitivity; [apply filter_length_le|].
  unfold candidates, vertical_columns.
  destruct df as [d|w]; simpl.
  - unfold iloc_col. destruct (0 <? df_ncols d), (1 <? df_ncols d); simpl; try lia.
    rewrite length_combine, !length_map. lia.
  - unfold get_col. rewrite length_combine, !length_map. lia.
Qed.

Lemma horizontal_rows_of_two (df : df_like) (row_words row_arts : list cell) :
  grid df = [row_words; row_arts] -> horizontal_rows df = Some (row_words, row_arts).
Proof.
  intros Hg. unfold horizontal_rows.
  destruct df as [d|w]; simpl in *.
  - unfold iloc_row. now rewrite Hg.
  - unfold get_row. now rewrite Hg.
Qed.

Lemma normalise_pairs_spec (l : list (cell * cell)) :
  Forall2 (fun wa p => PairOf (fst wa) (snd wa) p) l (map normalise l).
Proof.
  induction l as [|wa l IH]; [constructor|].
  cbn [map]. constructor; [|exact IH].
  now apply (proj1 (normalise_spec wa (normalise wa))).
Qed.

Lemma horizontal_sheet_loads
    (fs : filesystem) (path : string) (f : xlsx_file) (df : df_like)
    (row_words row_arts : list cell) :
  fs path = Some f -> read_grid f = Return df ->
  grid df = [row_words; row_arts] ->
  combine row_words row_arts <> [] ->
  Forall (fun wa => ValidPair (fst wa) (snd wa)) (combine row_words row_arts) ->
  load_word_article_pairs fs path (Str "horizontal")
    = Return (map normalise (combine row_words row_arts)) /\
  (3 <= length (combine row_words row_arts) ->
   load_word_article_pairs fs path (Str "auto")
     = Return (map normalise (combine row_words row_arts))).
Proof.
  intros Hf Hg Hgrid Hne Hvalid.
  assert (Hh : build_horizontal_pairs df = map normalise (combine row_words row_arts)).
  { rewrite build_horizontal_pairs_filter, (horizontal_rows_of_two df _ _ Hgrid).
    simpl. rewrite filter_all_true; [reflexivity|].
    eapply Forall_impl; [|exact Hvalid]. intros wa. apply valid_pair_ValidPair. }
  rewrite !(load_of_grid fs path f df _ Hf Hg). split.
  - unfold choose_pairs, chosen_pairs. simpl. rewrite Hh.
    destruct (combine row_words row_arts); [congruence | reflexivity].
  - intros H3. rewrite <- Hh. apply auto_returns_horizontal.
    rewrite Hh, length_map.
    pose proof (vertical_pairs_bound df) as Hb. rewrite Hgrid in Hb. simpl in Hb. lia.
Qed.

(** The horizontal counterpart of the vertical sheet: a grid of two
    rows, words above articles, every column a valid pair.  Forced to
    horizontal the loader returns the columns in order, each as its
    trimmed word with its trimmed, lowercased article; so does auto as
    soon as there are three columns, more than the two pairs the rows
    could give vertically. *)
Theorem horizontal_sheet_loads_in_column_order
    (fs : filesystem) (path : string) (f : xlsx_file) (df : df_like)
    (row_words row_arts : list cell) :
  fs path = Some f -> read_grid f = Return df ->
  grid df = [row_words; row_arts] ->
  combine row_words row_arts <> [] ->
  Forall (fun wa => ValidPair (fst wa) (snd wa)) (combine row_words row_arts) ->
  load_word_article_pairs fs path (Str "horizontal")
    = Return (map normalise (combine row_words row_arts)) /\
  (3 <= length (combine row_words row_arts) ->
   load_word_article_pairs fs path (Str "auto")
     = Return (map normalise (combine row_words row_arts))) /\
  Forall2 (fun wa p => PairOf (fst wa) (snd wa) p)
          (combine row_words row_arts) (map normalise (combine row_words row_arts)).
Proof.
  intros Hf Hg Hgrid Hne Hvalid.
  destruct (horizontal_sheet_loads fs path f df row_words row_arts
              Hf Hg Hgrid Hne Hvalid) as [Hh Ha].
  split; [exact Hh|]. split; [exact Ha | apply normalise_pairs_spec].
Qed.

Lemma horizontal_sheet_loads_in_column_order_witness :
  load_word_article_pairs (via_pandas flat_frame) "words.xlsx" (Str "horizontal")
    = Return [("Haus", "das"); ("Mann", "der"); ("Frau", "die")] /\
  (3 <= 3 ->
   load_word_article_pairs (via_pandas flat_frame) "words.xlsx" (Str "auto")
     = Return [("Haus", "das"); ("Mann", "der"); ("Frau", "die")]) /\
  Forall2 (fun wa p => PairOf (fst wa) (snd wa) p)
    (combine [txt "Haus"; txt "Mann"; txt "Frau"] [txt "das"; txt "der"; txt "die"])
    (map normalise
       (combine [txt "Haus"; txt "Mann"; txt "Frau"] [txt "das"; txt "der"; txt "die"])).
Proof.
  apply (horizontal_sheet_loads_in_column_order
           (via_pandas flat_frame) "words.xlsx"
           (mkFile (Some flat_frame) (inr "not used")) (Pandas flat_frame)
           [txt "Haus"; txt "Mann"; txt "Frau"] [txt "das"; txt "der"; txt "die"]).
  - reflexivity.
  - reflexivity.
  - reflexivity.
  - discriminate.
  - apply Forall_forall. intros wa Hin. simpl in Hin.
    destruct Hin as [<- | [<- | [<- | []]]];
      apply (proj1 (valid_pair_ValidPair _)); vm_compute; reflexivity.
Defined.

(** A grid without a second column has no vertical pair, whether pandas
    refuses the column or the wrapper fills it with [None]; a grid
    without a second row has no horizontal pair. *)
Theorem small_grids_have_no_pairs (df : df_like) :
  (well_formed df -> Forall (fun row => length row < 2) (grid df) ->
   build_vertical_pairs df = []) /\
  (length (grid df) < 2 -> build_horizontal_pairs df = []).
Proof.
  split.
  - intros Hwf Hnarrow. rewrite build_vertical_pairs_filter.
    unfold candidates, vertical_columns.
    destruct df as [d|w]; simpl in *.
    + unfold iloc_col. destruct (df_values d) as [|row rows] eqn:E.
      * destruct (0 <? df_ncols d), (1 <? df_ncols d); reflexivity.
      * inversion Hwf as [|? ? Hl _]; subst. inversion Hnarrow as [|? ? Hn _]; subst.
        replace (1 <? df_ncols d) with false by (symmetry; apply Nat.ltb_ge; lia).
        destruct (0 <? df_ncols d); reflexivity.
    + rewrite !get_col_nth, combine_map_same.
      induction (data w) as [|row rows IH]; [reflexivity|].
      inversion Hnarrow as [|? ? Hn Hrest]; subst.
      cbn [map filter].
      replace (nth 1 row PyNone) with PyNone by (symmetry; apply nth_overflow; lia).
      rewrite valid_pair_none_r. now apply IH.
  - intros Hshort. unfold build_horizontal_pairs, horizontal_rows.
    replace (shape0 df <? 2) with true; [reflexivity|].
    symmetry. apply Nat.ltb_lt. destruct df; exact Hshort.
Qed.

Lemma small_grids_have_no_pairs_witness :
  build_vertical_pairs (Pandas lone_cell_frame) = [] /\
  build_vertical_pairs (Fallback (mkWrapper [[txt "Haus"]; [txt "das"]])) = [] /\
  build_horizontal_pairs (Pandas single_frame) = [].
Proof.
  split; [|split].
  - apply (proj1 (small_grids_have_no_pairs (Pandas lone_cell_frame)));
      repeat constructor.
  - apply (proj1 (small_grids_have_no_pairs
                    (Fallback (mkWrapper [[txt "Haus"]; [txt "das"]]))));
      repeat constructor.
  - apply (proj2 (small_grids_have_no_pairs (Pandas single_frame))).
    simpl; lia.
Defined.

(* ------------------------------------------------------------------ *)
(** ** Padding *)
(* ------------------------------------------------------------------ *)

Lemma length_le_max_len (rows : list (list cell)) (rw : list cell) :
  In rw rows -> length rw <= max_len rows.
Proof.
  induction rows as [|r rows IH]; simpl; [tauto|].
  intros [-> | Hin]; [lia|]. specialize (IH Hin). lia.
Qed.

Lemma max_len_uniform (rows : list (list cell)) (n : nat) :
  rows <> [] -> Forall (fun rw => length rw = n) rows -> max_len rows = n.
Proof.
  intros Hne H. induction H as [|r rows Hr Hrest IH]; [congruence|].
  simpl. destruct rows as [|r' rows']; [simpl; lia|].
  rewrite IH by discriminate. lia.
Qed.

Lemma padded_rows_rectangular (rows : list (list cell)) :
  Forall (fun rw => length rw = max_len rows) (pad_rows rows).
Proof.
  rewrite pad_rows_spec. apply Forall_map, Forall_forall. intros rw Hin.
  apply length_le_max_len in Hin. rewrite length_app, repeat_length. lia.
Qed.

(** Rows of one length are left as they are. *)
Lemma pad_rows_uniform (rows : list (list cell)) (n : nat) :
  Forall (fun rw => length rw = n) rows -> pad_rows rows = rows.
Proof.
  intros H. destruct rows as [|r rows]; [reflexivity|].
  rewrite pad_rows_spec.
  rewrite (max_len_uniform (r :: rows) n) by (discriminate || exact H).
  rewrite <- (map_id (r :: rows)) at 2. apply map_ext_in. intros rw Hin.
  rewrite Forall_forall in H. rewrite (H rw Hin), Nat.sub_diag. apply app_nil_r.
Qed.

(** The padding loop: as many rows as before, every one as long as the
    longest, each the old row followed by [None] only; and padding what
    is already padded adds nothing. *)
Theorem padding_makes_the_grid_rectangular (rows : list (list cell)) :
  length (pad_rows rows) = length rows /\
  Forall (fun rw => length rw = max_len rows) (pad_rows rows) /\
  (forall i, exists k, nth i (pad_rows rows) [] = nth i rows [] ++ repeat PyNone k) /\
  pad_rows (pad_rows rows) = pad_rows rows.
Proof.
  split; [unfold pad_rows; apply length_map|].
  split; [apply padded_rows_rectangular|].
  split.
  - intros i. rewrite pad_rows_spec.
    destruct (le_lt_dec (length rows) i) as [Hge|Hlt].
    + exists 0. rewrite !nth_overflow; [reflexivity | lia | rewrite length_map; lia].
    + exists (max_len rows - length (nth i rows [])).
      rewrite (nth_indep _ [] ([] ++ repeat PyNone (max_len rows - length (@nil cell))))
        by (rewrite length_map; lia).
      now rewrite (map_nth (fun rw => rw ++ repeat PyNone (max_len rows - length rw))).
  - apply (pad_rows_uniform _ (max_len rows)). apply padded_rows_rectangular.
Qed.

Lemma nth_padded (rw : list cell) (k c : nat) :
  nth c (rw ++ repeat PyNone k) PyNone = nth c rw PyNone.
Proof.
  destruct (le_lt_dec (length rw) c) as [Hge|Hlt].
  - rewrite app_nth2 by lia. rewrite nth_repeat. now rewrite nth_overflow.
  - now apply app_nth1.
Qed.

(** The [None] cells the padding adds change neither reading. *)
Theorem padding_changes_no_reading (rows : list (list cell)) :
  build_vertical_pairs (Fallback (mkWrapper (pad_rows rows)))
    = build_vertical_pairs (Fallback (mkWrapper rows)) /\
  build_horizontal_pairs (Fallback (mkWrapper (pad_rows rows)))
    = build_horizontal_pairs (Fallback (mkWrapper rows)).
Proof.
  split.
  - unfold build_vertical_pairs, vertical_columns. rewrite !get_col_nth. simpl.
    rewrite pad_rows_spec, !map_map.
    f_equal; apply map_ext; intros rw; apply nth_padded.
  - destruct rows as [|r0 [|r1 tail]]; [reflexivity | reflexivity |].
    now rewrite horizontal_pairs_of_rows.
Qed.

(* ------------------------------------------------------------------ *)
(** ** Loading through the fallback reader *)
(* ------------------------------------------------------------------ *)

Lemma Forall_firstn_rows (P : list cell -> Prop) (k : nat) (l : list (list cell)) :
  Forall P l -> Forall P (firstn k l).
Proof.
  intros H. revert k. induction H as [|x l Hx _ IH]; intros [|k]; simpl; auto.
Qed.

Lemma blank_sheet_gap (ws : worksheet) :
  Forall (fun rv => is_empty_row rv = true) ws -> 10 <= length ws ->
  gap_at ws 10 = true.
Proof.
  intros H Hlen. apply gap_at_true. split; [lia|]. split; [exact Hlen|].
  intros i _ _. now apply row_at_empty_rows.
Qed.

Lemma read_rows_blank (ws : worksheet) :
  Forall (fun rv => is_empty_row rv = true) ws -> 10 <= length ws ->
  read_rows ws = Return [].
Proof.
  intros H Hlen.
  destruct (scan_rows_returns ws 10 (blank_sheet_gap ws H Hlen))
    as [st (Hrun & _ & _ & _ & _ & Hrows)].
  rewrite (read_rows_scan _ _ Hrun), Hrows. f_equal.
  apply filter_nonempty_empty_rows. now apply Forall_firstn_rows.
Qed.

Lemma read_rows_short (ws : worksheet) :
  length ws < 10 -> read_rows ws = Raise row_out_of_range.
Proof.
  intros Hlen. apply read_rows_raise, scan_rows_raises, no_gap_spec.
  intros m. destruct (le_lt_dec 10 m) as [Hm|Hm].
  - apply gap_at_beyond. lia.
  - now apply gap_at_short.
Qed.

Lemma load_via_openpyxl (fs : filesystem) (path : string) (f : xlsx_file)
    (ws : worksheet) (rows : list (list cell)) (o : orientation_arg) :
  fs path = Some f -> pandas_read f = None -> openpyxl_read f = inl ws ->
  read_rows ws = Return rows ->
  load_word_article_pairs fs path o
  = choose_pairs (Fallback (mkWrapper (pad_rows rows))) o.
Proof.
  intros Hf Hp Ho Hr. apply (load_of_grid fs path f); [exact Hf|].
  unfold read_grid, fallback_try, fallback_df. now rewrite Hp, Ho, Hr.
Qed.

Lemma load_via_openpyxl_raises (fs : filesystem) (path : string) (f : xlsx_file)
    (ws : worksheet) (e : exn) (o : orientation_arg) :
  fs path = Some f -> pandas_read f = None -> openpyxl_read f = inl ws ->
  read_rows ws = Raise e ->
  load_word_article_pairs fs path o
  = Raise (RuntimeError (read_failure_message (exn_message e))).
Proof.
  intros Hf Hp Ho Hr. unfold load_word_article_pairs. rewrite Hf.
  unfold read_grid, fallback_try, fallback_df. now rewrite Hp, Ho, Hr.
Qed.

(** When pandas fails and the sheet openpyxl opens holds nothing but
    empty rows: with ten such rows or more the scan ends with an empty
    grid and the loader raises the no-pairs [ValueError], whatever the
    orientation; with fewer than ten, or none, the scan runs off the
    sheet and the loader raises the read failure, the [IndexError] text
    in its message. *)
Theorem blank_sheet_raises_by_its_length
    (fs : filesystem) (path : string) (f : xlsx_file) (ws : worksheet)
    (o : orientation_arg) :
  fs path = Some f -> pandas_read f = None -> openpyxl_read f = inl ws ->
  Forall (fun rv => is_empty_row rv = true) ws ->
  (10 <= length ws ->
   read_rows ws = Return [] /\
   load_word_article_pairs fs path o = Raise (ValueError no_pairs_message)) /\
  (length ws < 10 ->
   read_rows ws = Raise (IndexError "tuple index out of range") /\
   load_word_article_pairs fs path o
     = Raise (RuntimeError (read_failure_message "tuple index out of range"))).
Proof.
  intros Hf Hp Ho Hblank. split; intros Hlen.
  - pose proof (read_rows_blank ws Hblank Hlen) as Hrows.
    split; [exact Hrows|].
    rewrite (load_via_openpyxl fs path f ws [] o Hf Hp Ho Hrows).
    unfold choose_pairs.
    destruct (chosen_pairs_is_a_reading (Fallback (mkWrapper (pad_rows []))) o)
      as [-> | ->]; reflexivity.
  - pose proof (read_rows_short ws Hlen) as Hrows.
    split; [exact Hrows|].
    now rewrite (load_via_openpyxl_raises fs path f ws _ o Hf Hp Ho Hrows).
Qed.

Lemma blank_sheet_raises_by_its_length_witness :
  (10 <= 12 ->
   read_rows (repeat blank_row 12) = Return [] /\
   load_word_article_pairs (via_openpyxl (repeat blank_row 12)) "words.xlsx"
     (Str "vertical")
     = Raise (ValueError no_pairs_message)) /\
  (3 < 10 ->
   read_rows (repeat blank_row 3) = Raise (IndexError "tuple index out of range") /\
   load_word_article_pairs (via_openpyxl (repeat blank_row 3)) "words.xlsx"
     (Str "vertical")
     = Raise (RuntimeError (read_failure_message "tuple index out of range"))).
Proof.
  split.
  - apply (proj1 (blank_sheet_raises_by_its_length
             (via_openpyxl (repeat blank_row 12)) "words.xlsx"
             (mkFile None (inl (repeat blank_row 12))) (repeat blank_row 12)
             (Str "vertical") eq_refl eq_refl eq_refl ltac:(repeat constructor))).
  - apply (proj2 (blank_sheet_raises_by_its_length
             (via_openpyxl (repeat blank_row 3)) "words.xlsx"
             (mkFile None (inl (repeat blank_row 3))) (repeat blank_row 3)
             (Str "vertical") eq_refl eq_refl eq_refl ltac:(repeat constructor))).
Defined.

(** Through the fallback reader, the entries of a vertical two-column
    sheet may have blank rows anywhere between them, as long as fewer
    than ten in a row, and must be followed by ten blank rows of the
    sheet or more: the loader then returns the pairs of the non-empty
    rows, in the order of the sheet, and nothing of what may follow the
    ten blank rows.  A sheet that holds no ten blank rows in a row makes
    the loader raise the read failure. *)
Theorem fallback_loads_vertical_sheet_with_blank_rows
    (fs : filesystem) (path : string) (f : xlsx_file)
    (body gap after : worksheet) :
  fs path = Some f -> pandas_read f = None ->
  no_gap body = true ->
  (openpyxl_read f = inl (body ++ gap ++ after) ->
   Forall (fun rv => is_empty_row rv = true) gap -> 10 <= length gap ->
   filter nonempty_row body <> [] ->
   Forall ValidRow (filter nonempty_row body) ->
   Forall (fun row => length row = 2) (filter nonempty_row body) ->
   load_word_article_pairs fs path (Str "auto")
     = Return (map row_pair (filter nonempty_row body)) /\
   Forall2 (fun row p => PairOf (nth 0 row PyNone) (nth 1 row PyNone) p)
           (filter nonempty_row body) (map row_pair (filter nonempty_row body))) /\
  (openpyxl_read f = inl body ->
   load_word_article_pairs fs path (Str "auto")
     = Raise (RuntimeError (read_failure_message "tuple index out of range"))).
Proof.
  intros Hf Hp Hno. split.
  - intros Ho Hgap Hlen Hne Hvalid H2. split; [|apply row_pairs_spec].
    assert (Hg : read_grid f = Return (Fallback (mkWrapper (filter nonempty_row body)))).
    { unfold read_grid, fallback_try, fallback_df. rewrite Hp, Ho.
      rewrite (read_rows_body_gap body gap after Hno Hgap Hlen).
      now rewrite (pad_rows_uniform _ 2 H2). }
    apply (two_column_sheet_loads_in_row_order fs path f
             (Fallback (mkWrapper (filter nonempty_row body))) Hf Hg);
      simpl; auto.
  - intros Ho.
    apply (load_via_openpyxl_raises fs path f body row_out_of_range _ Hf Hp Ho).
    now apply read_rows_raise, scan_rows_raises.
Qed.

Lemma fallback_loads_vertical_sheet_with_blank_rows_witness :
  load_word_article_pairs (via_openpyxl airy_sheet) "words.xlsx" (Str "auto")
    = Return [("Haus", "das"); ("Mann", "der"); ("Frau", "die")] /\
  load_word_article_pairs (via_openpyxl airy_rows) "words.xlsx" (Str "auto")
    = Raise (RuntimeError (read_failure_message "tuple index out of range")).
Proof.
  split.
  - apply (proj1 (fallback_loads_vertical_sheet_with_blank_rows
             (via_openpyxl airy_sheet) "words.xlsx" (mkFile None (inl airy_sheet))
             airy_rows (repeat blank_row 10) [[txt "Kind"; txt "das"]]
             eq_refl eq_refl eq_refl)).
    + reflexivity.
    + repeat constructor.
    + simpl; lia.
    + discriminate.
    + repeat constructor; apply valid_row_intro; vm_compute; reflexivity.
    + repeat constructor.
  - apply (proj2 (fallback_loads_vertical_sheet_with_blank_rows
             (via_openpyxl airy_rows) "words.xlsx" (mkFile None (inl airy_rows))
             airy_rows [] [] eq_refl eq_refl eq_refl)).
    reflexivity.
Defined.

(* ================================================================== *)
(** * More about the quiz controller *)
(* ================================================================== *)

Lemma round_div_zero (b : nat) : 0 < b -> round_div 0 b = 0.
Proof.
  intros Hb. pose proof (round_div_nearest 0 b Hb) as [_ H]. nia.
Qed.

Lemma round_div_bound (a b k : nat) : 0 < b -> a <= k * b -> round_div a b <= k.
Proof.
  intros Hb Ha. pose proof (round_div_nearest a b Hb) as [_ H]. nia.
Qed.

Lemma round_div_exact (b k : nat) : 0 < b -> round_div (k * b) b = k.
Proof.
  intros Hb. pose proof (round_div_nearest (k * b) b Hb) as [H1 H2]. nia.
Qed.

Section QuizRunsFacts.
Context {RS : RandomSource}.

(* ------------------------------------------------------------------ *)
(** ** The accuracy *)
(* ------------------------------------------------------------------ *)

(** The percentage shown stays within 0..100 as long as [score] does not
    exceed [seen]; it is 0 without a right answer and 100 when every
    question seen was answered right. *)
Theorem accuracy_bounds (st : app) :
  (score st <= seen st -> accuracy st <= 100) /\
  (score st = 0 -> accuracy st = 0) /\
  (0 < seen st -> score st = seen st -> accuracy st = 100).
Proof.
  unfold accuracy. destruct (seen st =? 0) eqn:E.
  - apply Nat.eqb_eq in E. repeat split; intros; lia.
  - apply Nat.eqb_neq in E. split; [|split].
    + intros H. apply round_div_bound; lia.
    + intros ->. apply round_div_zero. lia.
    + intros _ ->. rewrite (Nat.mul_comm (seen st) 100). apply round_div_exact. lia.
Qed.

(* ------------------------------------------------------------------ *)
(** ** What the handlers keep *)
(* ------------------------------------------------------------------ *)

(** The widgets as [next_question] leaves them. *)
Lemma next_question_widgets (st st' : app) :
  next_question st = Return st' ->
  btn_next (ui st') = false /\ btn_options (ui st') = true /\
  score_label (ui st') = score_label (ui (update_score_label st')).
Proof.
  unfold next_question.
  destruct (nth_error _ _) as [[cw ca]|]; [|discriminate].
  intros H. injection H as <-. repeat split; reflexivity.
Qed.

Lemma started_inv_nonempty (ps0 : list pair_t) (st : app) :
  ps0 <> [] -> started_inv ps0 st -> pairs st <> [].
Proof.
  intros Hne (_ & HP & _). exact (permutation_nonempty _ _ HP Hne).
Qed.

(** A draw from a started deck keeps the invariant. *)
Lemma next_question_keeps_inv (ps0 : list pair_t) (st : app) :
  ps0 <> [] ->
  btn_start (ui st) = false -> Permutation ps0 (pairs st) -> deck st = pairs st ->
  exists st', next_question st = Return st' /\ started_inv ps0 st' /\
    score st' = score st /\ seen st' = seen st + 1 /\
    scheduled st' = scheduled st /\ waiting_for_next st' = false.
Proof.
  intros Hne Hb HP Hd.
  assert (Hps : pairs st <> []) by exact (permutation_nonempty _ _ HP Hne).
  pose proof (index_used_in_range st Hps) as Hlt.
  destruct (nth_error (deck_used st) (index_used st)) as [p|] eqn:Hnth;
    [|apply nth_error_None in Hnth; lia].
  destruct (next_question_spec st p Hnth)
    as [st' (Hq & Hd' & Hi' & Hp' & Hg' & Hc' & Hsn & Hsc & Hw & Hsch & Hb')].
  destruct (next_question_widgets st st' Hq) as (Hn & Ho & Hl).
  exists st'. split; [exact Hq|].
  split; [|repeat split; assumption].
  unfold started_inv.
  split; [congruence|].
  split.
  { rewrite Hp'. destruct (length (deck st) <=? idx st); [|exact HP].
    eapply Permutation_trans; [exact HP | apply shuffle_perm]. }
  split.
  { rewrite Hd', Hp'. unfold deck_used.
    destruct (length (deck st) <=? idx st); [reflexivity | exact Hd]. }
  split; [lia|].
  split; [rewrite Hi', Hd'; lia|].
  split; [rewrite Hc', Hd', Hi', <- Hnth; f_equal; lia|].
  split; [congruence|].
  split; [rewrite Ho, Hw; reflexivity|].
  split; [exact Hl | lia].
Qed.

Lemma started_current (ps0 : list pair_t) (st : app) :
  started_inv ps0 st -> exists w a, current st = Some (w, a).
Proof.
  intros (_ & _ & _ & H1 & H2 & Hc & _).
  destruct (nth_error (deck st) (idx st - 1)) as [[w a]|] eqn:E.
  - now exists w, a.
  - apply nth_error_None in E. lia.
Qed.

(** An answer keeps the invariant too, and never raises once a question
    is shown. *)
Lemma submit_keeps_inv (ps0 : list pair_t) (st : app) (guess : string) :
  started_inv ps0 st ->
  exists st', submit guess st = Return st' /\ started_inv ps0 st'.
Proof.
  intros Hinv. destruct (started_current ps0 st Hinv) as (w & a & Hc).
  destruct Hinv as (Hb & HP & Hd & H1 & H2 & Hcur & Hn & Ho & Hl & Hs).
  pose proof Hcur as Hcur'. rewrite Hc in Hcur'.
  unfold submit. destruct (waiting_for_next st) eqn:Hw.
  - exists st. split; [reflexivity|]. unfold started_inv. rewrite Hw. auto 12.
  - rewrite Hc. destruct (String.eqb guess a).
    + eexists. split; [reflexivity|]. unfold started_inv; simpl.
      rewrite ?Hw.
      repeat (split; [first [assumption | reflexivity]|]).
      first [assumption | reflexivity].
    + eexists. split; [reflexivity|]. unfold started_inv; simpl.
      repeat (split; [first [assumption | reflexivity]|]).
      first [assumption | reflexivity].
Qed.

(** Every handler keeps the invariant of a started quiz and returns
    normally. *)
Lemma dispatch_keeps_inv (ps0 : list pair_t) (st : app) (e : event) :
  ps0 <> [] -> started_inv ps0 st ->
  exists st', dispatch e st = Return st' /\ started_inv ps0 st'.
Proof.
  intros Hne Hinv.
  pose proof Hinv as (Hb & HP & Hd & H1 & H2 & Hcur & Hn & Ho & Hl & Hs).
  assert (Hdraw : exists st', next_question st = Return st' /\ started_inv ps0 st').
  { destruct (next_question_keeps_inv ps0 st Hne Hb HP Hd) as [st' (Hq & Hi & _)].
    now exists st'. }
  destruct e as [| |a|k|]; cbn [dispatch].
  - rewrite Hb. now exists st.
  - destruct (btn_next (ui st)); [exact Hdraw | now exists st].
  - destruct (btn_options (ui st)); [now apply submit_keeps_inv | now exists st].
  - unfold on_key. destruct (waiting_for_next st); [exact Hdraw|].
    destruct (key_to_article k); [now apply submit_keeps_inv | now exists st].
  - destruct (scheduled st) as [|n] eqn:Es; [now exists st|].
    destruct (next_question_keeps_inv ps0
                (mkApp (pairs st) (deck st) (idx st) (waiting_for_next st) (score st)
                       (seen st) (current st) (gen st) n (ui st)) Hne Hb HP Hd)
      as [st' (Hq & Hi & _)].
    now exists st'.
Qed.

Lemma reshuffle_pairs (st : app) :
  pairs (reshuffle st) = snd (shuffle (gen st) (pairs st)) /\
  deck (reshuffle st) = snd (shuffle (gen st) (pairs st)).
Proof. unfold reshuffle. destruct (shuffle (gen st) (pairs st)). now split. Qed.

Lemma start_quiz_establishes_inv (g0 : rng) (ps0 : list pair_t) :
  ps0 <> [] ->
  exists st', start_quiz (init_app g0 ps0) = Return st' /\ started_inv ps0 st'.
Proof.
  intros Hne. unfold start_quiz. cbv zeta.
  destruct (reshuffle_pairs (init_app g0 ps0)) as [Hp Hd].
  match goal with |- exists st', next_question ?s = _ /\ _ =>
    destruct (next_question_keeps_inv ps0 s Hne) as [st' (Hq & Hi & _)]
  end.
  - reflexivity.
  - change (Permutation ps0 (pairs (reshuffle (init_app g0 ps0)))).
    rewrite Hp. apply shuffle_perm.
  - change (deck (reshuffle (init_app g0 ps0)) = pairs (reshuffle (init_app g0 ps0))).
    now rewrite Hp, Hd.
  - now exists st'.
Qed.

(** The handlers on the state [__init__] builds. *)
Lemma dispatch_init (g : rng) (ps : list pair_t) (e : event) :
  dispatch e (init_app g ps) =
  match e with
  | ClickStart => start_quiz (init_app g ps)
  | KeyPress k =>
      match key_to_article k with
      | Some _ => Raise (AttributeError no_current_art)
      | None => Return (init_app g ps)
      end
  | _ => Return (init_app g ps)
  end.
Proof.
  destruct e as [| |a|k|]; reflexivity.
Qed.

(** The event loop is either still in the state [__init__] built, or in
    a started state. *)
Lemma reachable_inv (g0 : rng) (ps0 : list pair_t) (st : app) :
  ps0 <> [] -> reachable g0 ps0 st ->
  st = init_app g0 ps0 \/ started_inv ps0 st.
Proof.
  intros Hne Hr. induction Hr as [|st st' e Hr IH Hstep]; [now left|].
  destruct IH as [-> | Hinv].
  - rewrite dispatch_init in Hstep. destruct e as [| |a|k|].
    + right. destruct (start_quiz_establishes_inv g0 ps0 Hne) as [st1 [Hs Hi]].
      rewrite Hs in Hstep. now injection Hstep as <-.
    + left. now injection Hstep as <-.
    + left. now injection Hstep as <-.
    + destruct (key_to_article k); [discriminate|].
      left. now injection Hstep as <-.
    + left. now injection Hstep as <-.
  - right. destruct (dispatch_keeps_inv ps0 st e Hne Hinv) as [st1 [Hs Hi]].
    rewrite Hs in Hstep. now injection Hstep as <-.
Qed.

(* ------------------------------------------------------------------ *)
(** ** The event loop *)
(* ------------------------------------------------------------------ *)

Lemma reachable_started (g0 : rng) (ps0 : list pair_t) (st : app) :
  ps0 <> [] -> reachable g0 ps0 st -> btn_start (ui st) = false ->
  started_inv ps0 st.
Proof.
  intros Hne Hr Hb. destruct (reachable_inv g0 ps0 st Hne Hr) as [-> | H];
    [discriminate Hb | exact H].
Qed.

Lemma reachable_current_in (g0 : rng) (ps0 : list pair_t) (st : app) (p : pair_t) :
  ps0 <> [] -> reachable g0 ps0 st -> current st = Some p -> In p ps0.
Proof.
  intros Hne Hr Hc. destruct (reachable_inv g0 ps0 st Hne Hr) as [-> | H];
    [discriminate Hc|].
  destruct H as (_ & HP & Hd & _ & _ & Hcur & _).
  rewrite Hcur in Hc. apply nth_error_In in Hc. rewrite Hd in Hc.
  apply Permutation_sym in HP. exact (Permutation_in p HP Hc).
Qed.

(** Once Start was clicked no handler raises: whatever the event, the
    state it is dispatched on yields a next state, Start stays
    disabled, and the deck pointer stays within the deck. *)
Theorem no_handler_raises_after_start
    (g0 : rng) (ps0 : list pair_t) (st : app) (e : event) :
  ps0 <> [] -> reachable g0 ps0 st -> btn_start (ui st) = false ->
  exists st', dispatch e st = Return st' /\
    reachable g0 ps0 st' /\ btn_start (ui st') = false /\
    1 <= idx st' /\ idx st' <= length (deck st') /\
    length (deck st') = length ps0.
Proof.
  intros Hne Hr Hb.
  pose proof (reachable_started g0 ps0 st Hne Hr Hb) as Hinv.
  destruct (dispatch_keeps_inv ps0 st e Hne Hinv) as [st' [Hs Hi]].
  exists st'. split; [exact Hs|].
  split; [exact (reach_step g0 ps0 st st' e Hr Hs)|].
  destruct Hi as (Hb' & HP & Hd & H1 & H2 & _).
  repeat (split; [assumption|]).
  rewrite Hd. symmetry. now apply Permutation_length.
Qed.

(** Before Start, the keys 1, 2 and 3 reach [submit] while no question
    is set and raise [AttributeError]; every other key, Next, the
    article buttons and the timer leave the state as [__init__] built
    it. *)
Theorem digit_key_before_start_raises (g : rng) (ps : list pair_t) :
  (forall k a, key_to_article k = Some a ->
     exists msg, dispatch (KeyPress k) (init_app g ps) = Raise (AttributeError msg)) /\
  (forall k, key_to_article k = None ->
     dispatch (KeyPress k) (init_app g ps) = Return (init_app g ps)) /\
  dispatch ClickNext (init_app g ps) = Return (init_app g ps) /\
  (forall a, dispatch (ClickArticle a) (init_app g ps) = Return (init_app g ps)) /\
  dispatch TimerFires (init_app g ps) = Return (init_app g ps).
Proof.
  split; [|split; [|split; [|split]]]; intros; rewrite dispatch_init; try reflexivity.
  - rewrite H. now exists no_current_art.
  - now rewrite H.
Qed.

(** Whatever the quiz shows is one of the pairs it was built on. *)
Theorem shown_question_is_a_loaded_pair
    (g0 : rng) (ps0 : list pair_t) (st : app) (p : pair_t) :
  ps0 <> [] -> reachable g0 ps0 st -> current st = Some p -> In p ps0.
Proof. apply reachable_current_in. Qed.

(** The widgets never fall out of step with the attributes: the score
    label always shows the current counters, Next is enabled exactly
    while an acknowledgment is awaited, and the article buttons exactly
    when the quiz is started and none is awaited. *)
Theorem widgets_follow_the_state (g0 : rng) (ps0 : list pair_t) (st : app) :
  ps0 <> [] -> reachable g0 ps0 st ->
  score_label (ui st) =
    ("Score: " ++ str_nat (score st) ++ " / " ++ str_nat (seen st)
       ++ " (" ++ str_nat (accuracy st) ++ "%)")%string /\
  btn_next (ui st) = waiting_for_next st /\
  btn_options (ui st) = negb (btn_start (ui st)) && negb (waiting_for_next st).
Proof.
  intros Hne Hr. destruct (reachable_inv g0 ps0 st Hne Hr) as [-> | H].
  - repeat split; reflexivity.
  - destruct H as (Hb & _ & _ & _ & _ & _ & Hn & Ho & Hl & _).
    split; [exact Hl|]. split; [exact Hn|]. now rewrite Hb, Ho.
Qed.

(** In a started quiz the keyboard does what the buttons do: while an
    acknowledgment is awaited any key acts as Next, and otherwise the
    keys 1, 2, 3 act as the buttons der, die, das. *)
Theorem keys_act_like_buttons (g0 : rng) (ps0 : list pair_t) (st : app) :
  ps0 <> [] -> reachable g0 ps0 st -> btn_start (ui st) = false ->
  (waiting_for_next st = true ->
   forall k, dispatch (KeyPress k) st = dispatch ClickNext st) /\
  (waiting_for_next st = false ->
   forall k a, key_to_article k = Some a ->
     dispatch (KeyPress k) st = dispatch (ClickArticle a) st) /\
  key_to_article "1" = Some "der" /\ key_to_article "2" = Some "die" /\
  key_to_article "3" = Some "das".
Proof.
  intros Hne Hr Hb.
  destruct (reachable_started g0 ps0 st Hne Hr Hb)
    as (_ & _ & _ & _ & _ & _ & Hn & Ho & _).
  split; [|split; [|repeat split; reflexivity]].
  - intros Hw k. cbn [dispatch]. unfold on_key. now rewrite Hn, Hw.
  - intros Hw k a Hk. cbn [dispatch]. unfold on_key. now rewrite Ho, Hw, Hk.
Qed.

(* ------------------------------------------------------------------ *)
(** ** A lap through the deck *)
(* ------------------------------------------------------------------ *)

Lemma skipn_nth_error (l : list pair_t) (i : nat) (p : pair_t) :
  nth_error l i = Some p -> skipn i l = p :: skipn (S i) l.
Proof.
  revert l; induction i as [|i IH]; intros [|x l] H; try discriminate.
  - now injection H as ->.
  - simpl in H. now rewrite (skipn_cons i x l), (IH l H).
Qed.

(** Draws that stay inside the deck show its entries one after the
    other. *)
Lemma asked_within_deck (k : nat) :
  forall st, idx st + k <= length (deck st) ->
  asked k st = firstn k (skipn (idx st) (deck st)).
Proof.
  induction k as [|k IH]; intros st Hk; [reflexivity|].
  assert (E : (length (deck st) <=? idx st) = false) by (apply Nat.leb_gt; lia).
  assert (Hlt : idx st < length (deck st)) by lia.
  apply nth_error_Some in Hlt.
  destruct (nth_error (deck st) (idx st)) as [p|] eqn:Hnth; [|congruence].
  destruct (next_question_spec st p) as [st1 (Hq & Hd & Hi & _ & _ & Hc & _)].
  { unfold deck_used, index_used. now rewrite E. }
  unfold deck_used in Hd. unfold index_used in Hi. rewrite E in Hd, Hi.
  cbn [asked]. rewrite Hq, Hc, IH by (rewrite Hi, Hd; lia).
  rewrite Hi, Hd, (skipn_nth_error _ _ _ Hnth).
  replace (idx st + 1) with (S (idx st)) by lia. reflexivity.
Qed.

(** A lap asks every pair exactly once.  Begun on an exhausted deck (or
    on the empty deck of a fresh application), [len(pairs)] draws show
    precisely the newly shuffled deck, a rearrangement of the pair set;
    and the question [start_quiz] shows, followed by the next
    [len(pairs) - 1] draws, is the deck it shuffled. *)
Theorem lap_asks_each_pair_once (st : app) :
  pairs st <> [] ->
  (length (deck st) <= idx st ->
   asked (length (pairs st)) st = snd (shuffle (gen st) (pairs st)) /\
   Permutation (pairs st) (asked (length (pairs st)) st)) /\
  (exists st1 p,
     start_quiz st = Return st1 /\ current st1 = Some p /\
     p :: asked (length (pairs st) - 1) st1 = deck st1 /\
     Permutation (pairs st) (deck st1)).
Proof.
  intros Hne.
  pose proof (shuffle_perm (gen st) (pairs st)) as HP.
  assert (Hpos : 1 <= length (pairs st)).
  { destruct (pairs st); [congruence | simpl; lia]. }
  assert (Htail : forall st1 p d,
            Permutation (pairs st) d -> deck st1 = d -> idx st1 = 1 ->
            nth_error d 0 = Some p ->
            p :: asked (length (pairs st) - 1) st1 = d).
  { intros st1 p d HPd Hd1 Hi1 Hp. apply Permutation_length in HPd.
    rewrite asked_within_deck by (rewrite Hi1, Hd1; lia).
    rewrite Hi1, Hd1. destruct d as [|q l]; [discriminate|].
    simpl in Hp. injection Hp as ->. simpl skipn.
    rewrite firstn_all2; [reflexivity|]. simpl in HPd. lia. }
  split.
  - intros Hex.
    assert (E : (length (deck st) <=? idx st) = true) by now apply Nat.leb_le.
    assert (H : asked (length (pairs st)) st = snd (shuffle (gen st) (pairs st))).
    { destruct (nth_error (snd (shuffle (gen st) (pairs st))) 0) as [p|] eqn:Hp.
      - destruct (next_question_spec st p) as [st1 (Hq & Hd1 & Hi1 & _ & _ & Hc & _)].
        { unfold deck_used, index_used. now rewrite E. }
        unfold deck_used in Hd1. unfold index_used in Hi1. rewrite E in Hd1, Hi1.
        replace (length (pairs st)) with (S (length (pairs st) - 1)) at 1 by lia.
        cbn [asked]. rewrite Hq, Hc.
        apply (Htail st1 p _ HP Hd1 Hi1 Hp).
      - apply nth_error_None in Hp. apply Permutation_length in HP. lia. }
    split; [exact H | now rewrite H].
  - destruct (start_quiz_spec st Hne)
      as [st1 (Hs & Hd1 & _ & _ & Hi1 & _ & _ & Hc & _)].
    destruct (nth_error (deck st1) 0) as [p|] eqn:Hp.
    + exists st1, p. split; [exact Hs|]. split; [exact Hc|].
      split; [|now rewrite Hd1].
      rewrite Hd1. apply (Htail st1 p _ HP Hd1 Hi1). now rewrite <- Hd1.
    + apply nth_error_None in Hp. rewrite Hd1 in Hp.
      apply Permutation_length in HP. lia.
Qed.

(* ------------------------------------------------------------------ *)
(** ** Answers and draws at the edges *)
(* ------------------------------------------------------------------ *)

(** Nothing stops a second answer before the automatic advance: from a
    Running state the right article submitted twice in a row counts
    twice, [seen] unchanged, and schedules two advances; when both have
    fired, two questions were drawn for one that was shown. *)
Theorem repeated_correct_answer_counts_again (st : app) (w a : string) :
  Running st -> current st = Some (w, a) ->
  exists st1 st2 st3 st4,
    submit a st = Return st1 /\ submit a st1 = Return st2 /\
    score st2 = score st + 2 /\ seen st2 = seen st /\ scheduled st2 = 2 /\
    dispatch TimerFires st2 = Return st3 /\
    dispatch TimerFires st3 = Return st4 /\
    score st4 = score st + 2 /\ seen st4 = seen st + 2 /\ scheduled st4 = 0.
Proof.
  intros (Hw & _ & Hsch & Hstart & Hne) Hc.
  destruct (submit_correct st w a Hw Hc)
    as [st1 (Hs1 & Hsc1 & Hsn1 & Hw1 & Hsch1 & Hc1 & Hp1 & _)].
  rewrite Hc in Hc1.
  destruct (submit_correct st1 w a Hw1 Hc1)
    as [st2 (Hs2 & Hsc2 & Hsn2 & Hw2 & Hsch2 & Hc2 & Hp2 & _)].
  assert (Hne2 : pairs st2 <> []) by congruence.
  destruct (next_question_ok
              (mkApp (pairs st2) (deck st2) (idx st2) (waiting_for_next st2)
                     (score st2) (seen st2) (current st2) (gen st2) 1 (ui st2)) Hne2)
    as [st3 (Hq3 & _ & _ & _ & _ & HP3 & Hsn3 & Hsc3 & _ & Hsch3 & _)].
  simpl in HP3, Hsn3, Hsc3, Hsch3.
  assert (Hne3 : pairs st3 <> []) by exact (permutation_nonempty _ _ HP3 Hne2).
  destruct (next_question_ok
              (mkApp (pairs st3) (deck st3) (idx st3) (waiting_for_next st3)
                     (score st3) (seen st3) (current st3) (gen st3) 0 (ui st3)) Hne3)
    as [st4 (Hq4 & _ & _ & _ & _ & _ & Hsn4 & Hsc4 & _ & Hsch4 & _)].
  simpl in Hsn4, Hsc4, Hsch4.
  exists st1, st2, st3, st4.
  split; [exact Hs1|]. split; [exact Hs2|].
  split; [lia|]. split; [lia|]. split; [lia|].
  split; [cbn [dispatch]; replace (scheduled st2) with 2 by lia; exact Hq3|].
  split; [cbn [dispatch]; rewrite Hsch3; exact Hq4|].
  split; [lia|]. split; [lia | exact Hsch4].
Qed.

Lemma shuffle_nil (g : rng) : snd (shuffle g []) = [].
Proof.
  pose proof (shuffle_perm g []) as HP. now apply Permutation_nil in HP.
Qed.

Lemma next_question_raises (st : app) :
  nth_error (deck_used st) (index_used st) = None ->
  next_question st = Raise (IndexError "list index out of range").
Proof.
  unfold deck_used, index_used, next_question, reshuffle.
  destruct st as [ps dk i w sc sn cur g sch u]; simpl.
  assert (Hw : (if w then mkApp ps dk i false sc sn cur g sch u
                else mkApp ps dk i w sc sn cur g sch u)
               = mkApp ps dk i false sc sn cur g sch u) by now destruct w.
  rewrite Hw. clear Hw. simpl.
  destruct (length dk <=? i).
  - destruct (shuffle g ps) as [g' ps']; simpl. intros Hnth. now rewrite Hnth.
  - simpl. intros Hnth. now rewrite Hnth.
Qed.

(** On an empty pair list the reshuffle yields an empty deck and the
    subscript raises [IndexError]: [start_quiz] always, [next_question]
    whenever the pointer is at the end of the deck. *)
Theorem empty_pair_list_raises_index_error (st : app) :
  pairs st = [] ->
  start_quiz st = Raise (IndexError "list index out of range") /\
  (length (deck st) <= idx st ->
   next_question st = Raise (IndexError "list index out of range")).
Proof.
  intros Hp. split.
  - destruct (reshuffle_pairs st) as [Hrp Hrd]. rewrite Hp, shuffle_nil in Hrp, Hrd.
    unfold start_quiz. cbv zeta.
    match goal with |- next_question ?s = _ =>
      assert (Hds : deck s = []) by exact Hrd;
      assert (Hps : pairs s = []) by exact Hrp;
      assert (His : idx s = 0) by reflexivity;
      apply next_question_raises; unfold deck_used, index_used;
      rewrite Hds, His, Hps
    end.
    change (length (@nil pair_t) <=? 0) with true. cbv iota.
    now rewrite shuffle_nil.
  - intros Hex. apply Nat.leb_le in Hex.
    apply next_question_raises. unfold deck_used, index_used.
    now rewrite Hex, Hp, shuffle_nil.
Qed.

(* ------------------------------------------------------------------ *)
(** ** From the sheet to the quiz *)
(* ------------------------------------------------------------------ *)

(** [main] either reports the loader's error, the exception's message
    under a fixed heading, or starts the application on the loaded
    pairs.  In the second case the list is not empty, so once started
    no handler raises, and every question ever shown is a pair of the
    sheet: a non-empty, trimmed word with der, die or das, so that one
    of the three buttons is the right answer. *)
Theorem main_starts_a_sound_quiz (fs : filesystem) (g : rng) :
  (forall msg, main fs g = inl msg ->
     exists e, load_word_article_pairs fs "words.xlsx" (Str "auto") = Raise e /\
       msg = ("Failed to load words.xlsx" ++ newline ++ newline
              ++ exn_message e)%string) /\
  (forall st0, main fs g = inr st0 ->
     exists ps, load_word_article_pairs fs "words.xlsx" (Str "auto") = Return ps /\
       st0 = init_app g ps /\ ps <> [] /\
       (forall st, reachable g ps st ->
          (forall p, current st = Some p -> In p ps /\ clean_pair p) /\
          (btn_start (ui st) = false ->
           forall e, exists st', dispatch e st = Return st'))).
Proof.
  unfold main.
  destruct (load_word_article_pairs fs "words.xlsx" (Str "auto")) as [ps|e] eqn:Hload.
  - split; [discriminate|].
    intros st0 H. injection H as <-.
    destruct (loader_clean _ _ _ _ Hload) as [Hne Hclean].
    exists ps. split; [reflexivity|]. split; [reflexivity|]. split; [exact Hne|].
    intros st Hr. split.
    + intros p Hc. pose proof (reachable_current_in g ps st p Hne Hr Hc) as Hin.
      split; [exact Hin|]. rewrite Forall_forall in Hclean. now apply Hclean.
    + intros Hb e.
      pose proof (reachable_started g ps st Hne Hr Hb) as Hinv.
      destruct (dispatch_keeps_inv ps st e Hne Hinv) as [st' [Hs _]].
      now exists st'.
  - split; [|discriminate].
    intros msg H. injection H as <-. now exists e.
Qed.

End QuizRunsFacts.

(* ------------------------------------------------------------------ *)
(** ** The sample quiz in the event loop *)
(* ------------------------------------------------------------------ *)

Lemma demo_started_reachable : @reachable reversing_source 0 demo_pairs demo_started.
Proof.
  apply (reach_step (RS := reversing_source) 0 demo_pairs
           (@init_app reversing_source 0 demo_pairs) demo_started ClickStart).
  - apply reach_init.
  - vm_compute. reflexivity.
Defined.

Lemma demo_waiting_reachable : @reachable reversing_source 0 demo_pairs demo_waiting.
Proof.
  apply (reach_step (RS := reversing_source) 0 demo_pairs
           demo_started demo_waiting (ClickArticle "der")).
  - exact demo_started_reachable.
  - vm_compute. reflexivity.
Defined.

Lemma demo_pairs_nonempty : demo_pairs <> [].
Proof. discriminate. Defined.

Lemma accuracy_bounds_witness :
  accuracy (tally 3 8) <= 100 /\ accuracy (tally 0 5) = 0 /\ accuracy (tally 4 4) = 100.
Proof.
  split; [|split].
  - apply (proj1 (accuracy_bounds (tally 3 8))). simpl; lia.
  - apply (proj1 (proj2 (accuracy_bounds (tally 0 5)))). reflexivity.
  - apply (proj2 (proj2 (accuracy_bounds (tally 4 4)))); [simpl; lia | reflexivity].
Defined.

Lemma no_handler_raises_after_start_witness :
  exists st', dispatch (KeyPress "2") demo_started = Return st' /\
    @reachable reversing_source 0 demo_pairs st' /\ btn_start (ui st') = false /\
    1 <= idx st' /\ idx st' <= length (deck st') /\
    length (deck st') = length demo_pairs.
Proof.
  apply (no_handler_raises_after_start (RS := reversing_source)
           0 demo_pairs demo_started (KeyPress "2")).
  - exact demo_pairs_nonempty.
  - exact demo_started_reachable.
  - reflexivity.
Defined.

Lemma digit_key_before_start_raises_witness :
  (exists msg,
     dispatch (KeyPress "1") (@init_app reversing_source 0 demo_pairs)
     = Raise (AttributeError msg)) /\
  dispatch (KeyPress "x") (@init_app reversing_source 0 demo_pairs)
    = Return (@init_app reversing_source 0 demo_pairs).
Proof.
  split.
  - apply (proj1 (digit_key_before_start_raises (RS := reversing_source) 0 demo_pairs)
             "1" "der").
    reflexivity.
  - apply (proj1 (proj2 (digit_key_before_start_raises (RS := reversing_source)
                           0 demo_pairs)) "x").
    reflexivity.
Defined.

Lemma shown_question_is_a_loaded_pair_witness : In ("Frau", "die") demo_pairs.
Proof.
  apply (shown_question_is_a_loaded_pair (RS := reversing_source)
           0 demo_pairs demo_started ("Frau", "die")).
  - exact demo_pairs_nonempty.
  - exact demo_started_reachable.
  - reflexivity.
Defined.

Lemma widgets_follow_the_state_witness :
  score_label (ui demo_waiting) = "Score: 0 / 1 (0%)" /\
  btn_next (ui demo_waiting) = true /\
  btn_options (ui demo_waiting) = false.
Proof.
  apply (widgets_follow_the_state (RS := reversing_source) 0 demo_pairs demo_waiting).
  - exact demo_pairs_nonempty.
  - exact demo_waiting_reachable.
Defined.

Lemma keys_act_like_buttons_witness :
  (forall k, dispatch (KeyPress k) demo_waiting = dispatch ClickNext demo_waiting) /\
  dispatch (KeyPress "2") demo_started = dispatch (ClickArticle "die") demo_started.
Proof.
  split.
  - apply (proj1 (keys_act_like_buttons (RS := reversing_source)
                    0 demo_pairs demo_waiting
                    demo_pairs_nonempty demo_waiting_reachable eq_refl)).
    reflexivity.
  - apply (proj1 (proj2 (keys_act_like_buttons (RS := reversing_source)
                    0 demo_pairs demo_started
                    demo_pairs_nonempty demo_started_reachable eq_refl))).
    + reflexivity.
    + reflexivity.
Defined.

Lemma lap_asks_each_pair_once_witness :
  asked 3 (@init_app reversing_source 0 demo_pairs)
    = [("Frau", "die"); ("Mann", "der"); ("Haus", "das")] /\
  Permutation demo_pairs (asked 3 (@init_app reversing_source 0 demo_pairs)).
Proof.
  apply (proj1 (lap_asks_each_pair_once (RS := reversing_source)
                  (@init_app reversing_source 0 demo_pairs) demo_pairs_nonempty)).
  simpl; lia.
Defined.

Lemma repeated_correct_answer_counts_again_witness :
  exists st1 st2 st3 st4,
    submit "die" demo_started = Return st1 /\ submit "die" st1 = Return st2 /\
    score st2 = 2 /\ seen st2 = 1 /\ scheduled st2 = 2 /\
    dispatch TimerFires st2 = Return st3 /\
    dispatch TimerFires st3 = Return st4 /\
    score st4 = 2 /\ seen st4 = 3 /\ scheduled st4 = 0.
Proof.
  exact (repeated_correct_answer_counts_again (RS := reversing_source)
           demo_started "Frau" "die" demo_started_running eq_refl).
Defined.

Lemma empty_pair_list_raises_index_error_witness :
  start_quiz (@init_app reversing_source 0 [])
    = Raise (IndexError "list index out of range") /\
  (0 <= 0 ->
   next_question (@init_app reversing_source 0 [])
     = Raise (IndexError "list index out of range")).
Proof.
  apply (empty_pair_list_raises_index_error (RS := reversing_source)
           (@init_app reversing_source 0 [])).
  reflexivity.
Defined.

Lemma main_starts_a_sound_quiz_witness :
  (exists e,
     load_word_article_pairs unreadable "words.xlsx" (Str "auto") = Raise e /\
     ("Failed to load words.xlsx" ++ newline ++ newline ++
      read_failure_message "File is not a zip file")%string
     = ("Failed to load words.xlsx" ++ newline ++ newline ++ exn_message e)%string) /\
  (exists ps,
     load_word_article_pairs (via_pandas haus_frame) "words.xlsx" (Str "auto")
       = Return ps /\
     @init_app reversing_source 0 demo_pairs = @init_app reversing_source 0 ps /\ ps <> []).
Proof.
  split.
  - apply (proj1 (main_starts_a_sound_quiz (RS := reversing_source) unreadable 0)).
    reflexivity.
  - destruct (proj2 (main_starts_a_sound_quiz (RS := reversing_source)
                       (via_pandas haus_frame) 0)
                (@init_app reversing_source 0 demo_pairs) eq_refl)
      as (ps & Hl & Hi & Hne & _).
    exists ps. exact (conj Hl (conj Hi Hne)).
Defined.
